(** * Task manager: validation, ownership and persistence of tasks

    A shallow embedding of [backend/tasks/services.py],
    [backend/tasks/repositories.py] and the exception mapping of
    [backend/tasks/views.py], with the properties of the service layer
    proved over it. *)

From Stdlib Require Import ZArith NArith String Ascii Lia.
From stdpp Require Import base list gmap sorting.

Open Scope Z_scope.

(** ** Python strings

    A Python [str] is a sequence of Unicode code points; [len] counts code
    points and [str.strip()] removes the characters for which [str.isspace]
    holds from both ends. *)

Module PyStr.

Definition char : Type := N.
Definition str : Type := list char.

(** The code points CPython treats as whitespace. *)
Definition isspace (c : char) : bool :=
  ((9 <=? c) && (c <=? 13) || (28 <=? c) && (c <=? 32)
   || (c =? 133) || (c =? 160) || (c =? 5760)
   || (8192 <=? c) && (c <=? 8202)
   || (c =? 8232) || (c =? 8233) || (c =? 8239) || (c =? 8287)
   || (c =? 12288))%N.

Fixpoint lstrip (s : str) : str :=
  match s with
  | [] => []
  | c :: s' => if isspace c then lstrip s' else s
  end.

Definition rstrip (s : str) : str := rev (lstrip (rev s)).

Definition strip (s : str) : str := rstrip (lstrip s).

Definition len (s : str) : Z := Z.of_nat (length s).

(** A literal: the code points of an ASCII string. *)
Definition lit (s : string) : str := map N_of_ascii (list_ascii_of_string s).

(** [c * n] for a one-character string [c]. *)
Definition replicate_char (c : char) (n : nat) : str := repeat c n.

(** Truth value of an optional string: [None] and the empty string are false. *)
Definition truthy (o : option str) : bool :=
  match o with
  | Some (_ :: _) => true
  | _ => false
  end.

(** [a or b] where [b] is a string. *)
Definition or_else (a : option str) (b : str) : str :=
  match a with
  | Some (c :: s) => c :: s
  | _ => b
  end.

End PyStr.

Import PyStr.

(** ** Exceptions and results *)

Inductive exn : Type :=
| ValidationError (msg : string)
| PermissionDenied (msg : string)
| AttributeError (msg : string).

Inductive result (A : Type) : Type :=
| Ok (a : A)
| Raise (e : exn).

Arguments Ok {A} a.
Arguments Raise {A} e.

(** ** TaskValidationService *)

Definition validate_task_data (title description : option str) : result unit :=
  match title with
  | None => Raise (ValidationError "El título es requerido")
  | Some t =>
      if negb (truthy (Some t)) || negb (truthy (Some (strip t))) then
        Raise (ValidationError "El título es requerido")
      else if len (strip t) <? 3 then
        Raise (ValidationError "El título debe tener al menos 3 caracteres")
      else if len (strip t) >? 200 then
        Raise (ValidationError "El título no puede exceder 200 caracteres")
      else if truthy description && (len (default [] description) >? 1000) then
        Raise (ValidationError "La descripción no puede exceder 1000 caracteres")
      else Ok tt
  end.

(** ** The Task model and its table

    Users are referred to by primary key: Django compares model instances
    by primary key, which is what [task.user != user] tests. *)

Definition User : Type := Z.

(** Modelled from the spec: [models.py] is absent; a Task has the columns
    [id], [user] (the owner), [title], [description] and [created_at]. *)
Module Task.
Record t : Type := Build
  { id : Z; user : User; title : str; description : str; created_at : Z }.

Definition set_title (x : t) (v : str) : t :=
  {| id := id x; user := user x; title := v;
     description := description x; created_at := created_at x |}.

Definition set_description (x : t) (v : str) : t :=
  {| id := id x; user := user x; title := title x;
     description := v; created_at := created_at x |}.
End Task.

(** A stored row: the columns other than the primary key. *)
Record Row : Type :=
  { row_user : User; row_title : str; row_description : str; row_created_at : Z }.

Definition instance (pk : Z) (r : Row) : Task.t :=
  {| Task.id := pk; Task.user := row_user r; Task.title := row_title r;
     Task.description := row_description r; Task.created_at := row_created_at r |}.

Definition columns (x : Task.t) : Row :=
  {| row_user := Task.user x; row_title := Task.title x;
     row_description := Task.description x; row_created_at := Task.created_at x |}.

(** The table maps primary keys to rows; [next_id] is the key sequence. *)
Record Store : Type := { table : gmap Z Row; next_id : Z }.

Definition empty_store : Store := {| table := ∅; next_id := 1 |}.

(** ** Computations over the store that may raise *)

Definition M (A : Type) : Type := Store → result A * Store.

#[global] Instance M_ret : MRet M := λ A a st, (Ok a, st).

#[global] Instance M_bind : MBind M := λ A B f m st,
  match m st with
  | (Ok a, st') => f a st'
  | (Raise e, st') => (Raise e, st')
  end.

Definition raise {A : Type} (e : exn) : M A := λ st, (Raise e, st).

Definition lift {A : Type} (r : result A) : M A := λ st, (r, st).

(** [s.strip()] on an optional string: [None] has no such method. *)
Definition strip_method (s : option str) : result str :=
  match s with
  | Some s => Ok (strip s)
  | None => Raise (AttributeError "'NoneType' object has no attribute 'strip'")
  end.

(** ** TaskRepository *)

(** [order_by('-created_at')] *)
Definition created_at_desc (x y : Task.t) : Prop :=
  Task.created_at y ≤ Task.created_at x.

#[global] Instance created_at_desc_dec : RelDecision created_at_desc :=
  λ x y, Z_le_dec (Task.created_at y) (Task.created_at x).

Definition objects (st : Store) : list Task.t :=
  (λ kr, instance kr.1 kr.2) <$> map_to_list (table st).

Definition get_by_id (task_id : Z) : M (option Task.t) := λ st,
  (Ok (instance task_id <$> table st !! task_id), st).

Definition get_by_user (user : User) : M (list Task.t) := λ st,
  (Ok (merge_sort created_at_desc
         (filter (λ x, Task.user x = user) (objects st))), st).

(** [now] is the clock reading that [auto_now_add] stores in [created_at]. *)
Definition create (now : Z) (user : User) (title description : str) : M Task.t :=
  λ st,
    let r := {| row_user := user; row_title := title;
                row_description := description; row_created_at := now |} in
    (Ok (instance (next_id st) r),
     {| table := <[next_id st := r]> (table st); next_id := next_id st + 1 |}).

Definition save (task : Task.t) : M unit := λ st,
  (Ok tt, {| table := <[Task.id task := columns task]> (table st);
             next_id := next_id st |}).

Definition update (task : Task.t) (title description : option str) : M Task.t :=
  let task := match title with
              | Some v => Task.set_title task v
              | None => task
              end in
  let task := match description with
              | Some v => Task.set_description task v
              | None => task
              end in
  _ ← save task;
  mret task.

Definition delete (task : Task.t) : M unit := λ st,
  (Ok tt, {| table := base.delete (Task.id task) (table st);
             next_id := next_id st |}).

Definition exists_ (task_id : Z) (user : User) : M bool := λ st,
  (Ok (match table st !! task_id with
       | Some r => bool_decide (row_user r = user)
       | None => false
       end), st).

(** ** TaskPermissionService *)

Definition check_task_ownership (task : Task.t) (user : User) : result unit :=
  if bool_decide (Task.user task ≠ user) then
    Raise (PermissionDenied "No tienes permisos para acceder a esta tarea")
  else Ok tt.

(** ** TaskService *)

Definition create_task (now : Z) (user : User) (title description : option str)
  : M Task.t :=
  _ ← lift (validate_task_data title description);
  title' ← lift (strip_method title);
  description' ← lift (if truthy description then strip_method description
                       else Ok []);
  create now user title' description'.

Definition get_user_tasks (user : User) : M (list Task.t) :=
  get_by_user user.

Definition get_task_by_id (task_id : Z) (user : User) : M Task.t :=
  task ← get_by_id task_id;
  match task with
  | None => raise (ValidationError "Tarea no encontrada")
  | Some task =>
      _ ← lift (check_task_ownership task user);
      mret task
  end.

Definition update_task (task_id : Z) (user : User)
    (title description : option str) : M Task.t :=
  task ← get_task_by_id task_id user;
  title ← match title with
          | Some _ =>
              _ ← lift (validate_task_data title
                          (Some (or_else description (Task.description task))));
              s ← lift (strip_method title);
              mret (Some s)
          | None => mret None
          end;
  description ← match description with
                | Some _ => s ← lift (strip_method description); mret (Some s)
                | None => mret None
                end;
  update task title description.

Definition delete_task (task_id : Z) (user : User) : M unit :=
  task ← get_task_by_id task_id user;
  delete task.

(** ** The views' exception mapping *)

Inductive Body : Type :=
| ErrorBody (msg : string)
| TaskBody (task : Task.t)
| NoBody.

Record Response : Type := { status : Z; body : Body }.

(** [repr] of a string: in single quotes, or in double quotes when the
    text has a single quote and no double quote; the quote in use and the
    backslash are escaped, tab, newline and return are written with their
    letters and the other control characters in hexadecimal. Bytes above
    127 are taken to belong to printable characters and are copied. *)
Module PyRepr.

Definition squote : ascii := ascii_of_N 39.
Definition dquote : ascii := ascii_of_N 34.
Definition backslash : ascii := ascii_of_N 92.

Fixpoint contains (c : ascii) (s : string) : bool :=
  match s with
  | EmptyString => false
  | String a s' => Ascii.eqb a c || contains c s'
  end.

Definition hex_digit (n : N) : ascii :=
  ascii_of_N (if (n <? 10)%N then 48 + n else 87 + n)%N.

Definition repr_char (quote c : ascii) : string :=
  let n := N_of_ascii c in
  if Ascii.eqb c quote || Ascii.eqb c backslash then
    String backslash (String c EmptyString)
  else if (n =? 9)%N then String backslash "t"
  else if (n =? 10)%N then String backslash "n"
  else if (n =? 13)%N then String backslash "r"
  else if ((n <? 32) || (n =? 127))%N then
    String backslash
      (String "x" (String (hex_digit (n / 16))
                     (String (hex_digit (n mod 16)) EmptyString)))
  else String c EmptyString.

Fixpoint repr_chars (quote : ascii) (s : string) : string :=
  match s with
  | EmptyString => EmptyString
  | String c s' => String.append (repr_char quote c) (repr_chars quote s')
  end.

Definition repr (s : string) : string :=
  let quote :=
    if contains squote s && negb (contains dquote s) then dquote else squote in
  String quote (String.append (repr_chars quote s) (String quote EmptyString)).

End PyRepr.

(** [str(e)]: a django [ValidationError] made from one message prints as
    the [repr] of the list holding it; the other exceptions print as their
    message. *)
Definition exn_str (e : exn) : string :=
  match e with
  | ValidationError msg =>
      String.append "[" (String.append (PyRepr.repr msg) "]")
  | PermissionDenied msg => msg
  | AttributeError msg => msg
  end.

Definition handle_service_exceptions (r : result Response) : Response :=
  match r with
  | Ok resp => resp
  | Raise (ValidationError msg) =>
      {| status := 400; body := ErrorBody (exn_str (ValidationError msg)) |}
  | Raise (PermissionDenied msg) =>
      {| status := 403; body := ErrorBody (exn_str (PermissionDenied msg)) |}
  | Raise _ => {| status := 500; body := ErrorBody "Error interno del servidor" |}
  end.

(** [TaskRetrieveUpdateDestroyView.get]: the response and the store after it. *)
Definition _get_task (task_id : Z) (user : User) : M Response :=
  task ← get_task_by_id task_id user;
  mret {| status := 200; body := TaskBody task |}.

Definition get (task_id : Z) (user : User) (st : Store) : Response * Store :=
  let (r, st') := _get_task task_id user st in
  (handle_service_exceptions r, st').

(** The statuses the schema of [get] declares. *)
Definition get_responses : list Z := [200; 403; 404].

(** A string is trimmed when stripping leaves it as it is. *)
Definition trimmed (s : str) : Prop := strip s = s.

(** The bound and the form the data model gives every stored description. *)
Definition description_invariant (st : Store) : Prop :=
  ∀ task_id task,
    get_by_id task_id st = (Ok (Some task), st) →
    len (Task.description task) ≤ 1000 ∧ trimmed (Task.description task).

(** The failure [check_task_ownership] raises, and the one
    [get_task_by_id] raises for an id that is not in the table. *)
Definition forbidden : exn :=
  PermissionDenied "No tienes permisos para acceder a esta tarea".

Definition not_found : exn := ValidationError "Tarea no encontrada".

(** ** Sample data *)

Definition buy_milk : Task.t :=
  {| Task.id := 1; Task.user := 1; Task.title := lit "Buy milk";
     Task.description := lit "2%"; Task.created_at := 10 |}.

(** The store after user 1 created "Buy milk" at time 10. *)
Definition milk_store : Store :=
  (create_task 10 1 (Some (lit "Buy milk")) (Some (lit "2%")) empty_store).2.

(** A description of 1001 characters. *)
Definition long_description : str := replicate_char 97%N 1001.

(** The store after the owner of "Buy milk" sent that description alone. *)
Definition long_store : Store :=
  (update_task 1 1 None (Some long_description) milk_store).2.

(** The store after the owner of "Buy milk" deleted it. *)
Definition deleted_store : Store := (delete_task 1 1 milk_store).2.

(** A row written through the repository, which does not validate: its
    title has two characters. *)
Definition short_title_store : Store :=
  (create 10 1 (lit "ab") [] empty_store).2.

Definition short_title_task : Task.t :=
  {| Task.id := 1; Task.user := 1; Task.title := lit "ab";
     Task.description := []; Task.created_at := 10 |}.

(** ** Further invariants of the table *)

(** Every stored title is trimmed and has between 3 and 200 characters. *)
Definition title_invariant (st : Store) : Prop :=
  ∀ task_id task,
    get_by_id task_id st = (Ok (Some task), st) →
    3 ≤ len (Task.title task) ≤ 200 ∧ trimmed (Task.title task).

(** Every stored description is trimmed. *)
Definition descriptions_trimmed (st : Store) : Prop :=
  ∀ task_id task,
    get_by_id task_id st = (Ok (Some task), st) →
    trimmed (Task.description task).

(** The key sequence is ahead of every key in use. *)
Definition ids_below_next (st : Store) : Prop :=
  ∀ k, is_Some (table st !! k) → k < next_id st.

(** [task] is what the table holds under its id. *)
Definition stored (st : Store) (task : Task.t) : Prop :=
  get_by_id (Task.id task) st = (Ok (Some task), st).

(** ** Sequences of service calls *)

Inductive call : Type :=
| CreateTask (now : Z) (user : User) (title description : option str)
| UpdateTask (task_id : Z) (user : User) (title description : option str)
| DeleteTask (task_id : Z) (user : User).

Definition caller (c : call) : User :=
  match c with
  | CreateTask _ user _ _ | UpdateTask _ user _ _ | DeleteTask _ user => user
  end.

(** The store a call leaves, whether it returns or raises. *)
Definition after_call (st : Store) (c : call) : Store :=
  match c with
  | CreateTask now user title description =>
      (create_task now user title description st).2
  | UpdateTask task_id user title description =>
      (update_task task_id user title description st).2
  | DeleteTask task_id user => (delete_task task_id user st).2
  end.

(** The exception a call raises, if it raises. *)
Definition failure (st : Store) (c : call) : option exn :=
  let raised {A} (r : result A) : option exn :=
    match r with
    | Ok _ => None
    | Raise e => Some e
    end in
  match c with
  | CreateTask now user title description =>
      raised (create_task now user title description st).1
  | UpdateTask task_id user title description =>
      raised (update_task task_id user title description st).1
  | DeleteTask task_id user => raised (delete_task task_id user st).1
  end.

Definition after_calls (st : Store) (cs : list call) : Store :=
  foldl after_call st cs.

(** ** [str.split()]

    Without arguments [split] cuts at runs of whitespace and returns no
    empty word; [word] holds the characters of the current word, last
    first. *)

Fixpoint split_from (word : str) (s : str) : list str :=
  match s with
  | [] => match word with
          | [] => []
          | _ :: _ => [rev word]
          end
  | c :: s' =>
      if isspace c then
        match word with
        | [] => split_from [] s'
        | _ :: _ => rev word :: split_from [] s'
        end
      else split_from (c :: word) s'
  end.

Definition split (s : str) : list str := split_from [] s.

(** A character that is not white space. *)
Definition visible (c : char) : Prop := isspace c = false.

(** ** Serializers *)

Module serializers.

(** What a field validator gives: the cleaned value, or the message of
    the [serializers.ValidationError] it raises. *)
Inductive validated (A : Type) : Type :=
| Valid (a : A)
| Invalid (msg : string).

Arguments Valid {A} a.
Arguments Invalid {A} msg.

(** [BaseTaskSerializer.validate_title] *)
Definition validate_title (value : option str) : validated str :=
  match value with
  | None => Invalid "El título es requerido"
  | Some v =>
      if negb (truthy (Some v)) || negb (truthy (Some (strip v))) then
        Invalid "El título es requerido"
      else if len (strip v) <? 3 then
        Invalid "El título debe tener al menos 3 caracteres"
      else if len (strip v) >? 200 then
        Invalid "El título no puede exceder 200 caracteres"
      else Valid (strip v)
  end.

(** [BaseTaskSerializer.validate_description] *)
Definition validate_description (value : option str) : validated str :=
  if truthy value && (len (default [] value) >? 1000) then
    Invalid "La descripción no puede exceder 1000 caracteres"
  else
    Valid (if truthy value then strip (default [] value) else []).

(** [TaskListSerializer.get_description_preview] *)
Definition get_description_preview (obj : Task.t) : str :=
  if truthy (Some (Task.description obj)) then
    if len (Task.description obj) >? 50 then
      take 50 (Task.description obj) ++ lit "..."
    else Task.description obj
  else [].

(** [TaskDetailSerializer.get_word_count] *)
Definition get_word_count (obj : Task.t) : Z :=
  let total_words := Z.of_nat (length (split (Task.title obj))) in
  if truthy (Some (Task.description obj)) then
    total_words + Z.of_nat (length (split (Task.description obj)))
  else total_words.

End serializers.

(** ** TaskRetrieveUpdateDestroyView: deletion *)

Module TaskRetrieveUpdateDestroyView.

Definition _delete_task (task_id : Z) (user : User) : M Response :=
  _ ← delete_task task_id user;
  mret {| status := 204; body := NoBody |}.

Definition delete (task_id : Z) (user : User) (st : Store) : Response * Store :=
  let (r, st') := _delete_task task_id user st in
  (handle_service_exceptions r, st').

End TaskRetrieveUpdateDestroyView.

(** A description of 1001 characters that trims to one. *)
Definition padded_description : str := 97%N :: replicate_char 32%N 1000.

(** * Properties *)

(** ** Sample runs *)

Example validate_buy_milk :
  validate_task_data (Some (lit "Buy milk")) (Some (lit "2%")) = Ok tt.
Proof. reflexivity. Qed.

Example validate_short :
  validate_task_data (Some (lit "  ab   ")) None
  = Raise (ValidationError "El título debe tener al menos 3 caracteres").
Proof. reflexivity. Qed.

Example end_to_end :
  let (r1, st1) := create_task 10 1 (Some (lit " Buy milk ")) (Some (lit "2%"))
                     empty_store in
  let (r2, st2) := update_task 1 1 (Some (lit "Buy oat milk")) None st1 in
  let (r3, st3) := get_task_by_id 1 2 st2 in
  let (r4, st4) := delete_task 1 1 st3 in
  let (r5, st5) := get_task_by_id 1 1 st4 in
  r1 = Ok (Task.Build 1 1 (lit "Buy milk") (lit "2%") 10)
  ∧ r2 = Ok (Task.Build 1 1 (lit "Buy oat milk") (lit "2%") 10)
  ∧ r3 = Raise (PermissionDenied "No tienes permisos para acceder a esta tarea")
  ∧ r4 = Ok tt
  ∧ r5 = Raise (ValidationError "Tarea no encontrada").
Proof. vm_compute. repeat split. Qed.

Example listing :
  let st1 := (create_task 10 1 (Some (lit "Buy milk")) None empty_store).2 in
  let st2 := (create_task 20 2 (Some (lit "Walk dog")) None st1).2 in
  let st3 := (create_task 30 1 (Some (lit "Pay rent")) None st2).2 in
  (get_user_tasks 1 st3).1
  = Ok [Task.Build 3 1 (lit "Pay rent") [] 30;
        Task.Build 1 1 (lit "Buy milk") [] 10]
  ∧ (get_user_tasks 3 st3).1 = Ok [].
Proof. vm_compute. by split. Qed.

(** ** Stripping *)

Section Strip.

Implicit Types (s : str) (c : char).

Lemma lstrip_length s : (length (lstrip s) ≤ length s)%nat.
Proof.
  induction s as [|c s IH]; simpl; [lia|].
  destruct (isspace c); simpl; lia.
Qed.

Lemma strip_length s : (length (strip s) ≤ length s)%nat.
Proof.
  unfold strip, rstrip. rewrite length_rev.
  etransitivity; [apply lstrip_length|].
  rewrite length_rev. apply lstrip_length.
Qed.

Lemma len_strip_le s : len (strip s) ≤ len s.
Proof. unfold len. pose proof (strip_length s). lia. Qed.

(** What [lstrip] leaves is empty or starts with a visible character. *)
Lemma lstrip_head s :
  lstrip s = [] ∨ ∃ c s', lstrip s = c :: s' ∧ isspace c = false.
Proof.
  induction s as [|c s IH]; simpl; [by left|].
  destruct (isspace c) eqn:Hc; [done|].
  right. by exists c, s.
Qed.

Lemma lstrip_visible c s : isspace c = false → lstrip (c :: s) = c :: s.
Proof. intros Hc. simpl. by rewrite Hc. Qed.

Lemma lstrip_idemp s : lstrip (lstrip s) = lstrip s.
Proof.
  destruct (lstrip_head s) as [->|(c & s' & -> & Hc)]; [done|].
  by apply lstrip_visible.
Qed.

(** A visible last character survives [lstrip]. *)
Lemma lstrip_snoc_visible s c :
  isspace c = false → ∃ u, lstrip (s ++ [c]) = u ++ [c].
Proof.
  intros Hc. induction s as [|a s IH]; simpl.
  - rewrite Hc. by exists [].
  - destruct (isspace a); [done|]. by exists (a :: s).
Qed.

Lemma rstrip_idemp s : rstrip (rstrip s) = rstrip s.
Proof. unfold rstrip. by rewrite rev_involutive, lstrip_idemp. Qed.

Lemma lstrip_rstrip_lstrip s : lstrip (rstrip (lstrip s)) = rstrip (lstrip s).
Proof.
  destruct (lstrip_head s) as [->|(c & s' & -> & Hc)]; [done|].
  unfold rstrip. simpl rev.
  destruct (lstrip_snoc_visible (rev s') c Hc) as [u ->].
  rewrite rev_app_distr. simpl. by rewrite Hc.
Qed.

Lemma strip_idemp s : strip (strip s) = strip s.
Proof.
  unfold strip. by rewrite lstrip_rstrip_lstrip, rstrip_idemp.
Qed.

Lemma strip_nil : strip [] = [].
Proof. reflexivity. Qed.

End Strip.

Lemma trimmed_strip s : trimmed (strip s).
Proof. apply strip_idemp. Qed.

(** ** Validation *)

Lemma truthy_len s : truthy (Some s) = bool_decide (0 < len s).
Proof.
  destruct s as [|c s]; [done|].
  symmetry. apply bool_decide_eq_true_2. unfold len. simpl length. lia.
Qed.

Lemma validate_task_data_ok t d :
  3 ≤ len (strip t) ≤ 200 →
  (truthy d = true → len (default [] d) ≤ 1000) →
  validate_task_data (Some t) d = Ok tt.
Proof.
  intros Ht Hd. unfold validate_task_data.
  pose proof (len_strip_le t) as Hle.
  rewrite !truthy_len, !bool_decide_true by lia. simpl.
  destruct (Z.ltb_spec (len (strip t)) 3); [lia|].
  rewrite Z.gtb_ltb. destruct (Z.ltb_spec 200 (len (strip t))); [lia|].
  destruct (truthy d); simpl; [|done].
  rewrite Z.gtb_ltb. destruct (Z.ltb_spec 1000 (len (default [] d))); [|done].
  specialize (Hd eq_refl). lia.
Qed.

Lemma validate_task_data_ok_inv title d :
  validate_task_data title d = Ok tt →
  ∃ t, title = Some t ∧ 3 ≤ len (strip t) ≤ 200
       ∧ (truthy d = true → len (default [] d) ≤ 1000).
Proof.
  unfold validate_task_data. destruct title as [t|]; [|done].
  destruct (_ || _); [done|].
  destruct (Z.ltb_spec (len (strip t)) 3); [done|].
  rewrite Z.gtb_ltb. destruct (Z.ltb_spec 200 (len (strip t))); [done|].
  destruct (truthy d); simpl.
  - rewrite Z.gtb_ltb. destruct (Z.ltb_spec 1000 (len (default [] d))); [done|].
    intros _. exists t. repeat split; lia.
  - intros _. exists t. repeat split; (lia || done).
Qed.

(** Whatever [validate_task_data] raises is a [ValidationError]. *)
Lemma validate_task_data_raises title d e :
  validate_task_data title d = Raise e → ∃ msg, e = ValidationError msg.
Proof.
  unfold validate_task_data. destruct title as [t|].
  - repeat (match goal with
            | |- context [if ?b then _ else _] => destruct b
            end); intros [= <-]; eauto.
  - intros [= <-]; eauto.
Qed.

Lemma validate_task_data_bad_title title d :
  match title with
  | None => True
  | Some t => len (strip t) < 3 ∨ 200 < len (strip t)
  end →
  ∃ msg, validate_task_data title d = Raise (ValidationError msg).
Proof.
  destruct title as [t|]; simpl; [|by eauto].
  intros Ht. destruct (_ || _); [by eauto|].
  destruct (Z.ltb_spec (len (strip t)) 3); [by eauto|].
  rewrite Z.gtb_ltb. destruct (Z.ltb_spec 200 (len (strip t))); [by eauto|].
  lia.
Qed.

(** ** Running computations *)

Ltac run :=
  unfold create_task, update_task, delete_task, get_task_by_id, get_user_tasks,
    update, get_by_id, get_by_user, create, save, delete, raise, lift,
    mbind, M_bind, mret, M_ret in *;
  simpl in *.

Lemma get_by_id_Some task_id task st :
  get_by_id task_id st = (Ok (Some task), st) →
  table st !! task_id = Some (columns task) ∧ Task.id task = task_id.
Proof.
  run. intros [= H]. destruct (table st !! task_id) as [r|]; [|done].
  simpl in H. injection H as <-. by destruct r.
Qed.

Lemma get_by_id_None task_id st :
  get_by_id task_id st = (Ok None, st) ↔ table st !! task_id = None.
Proof.
  run. split.
  - intros [= H]. by destruct (table st !! task_id).
  - by intros ->.
Qed.

Lemma get_by_id_lookup task_id st :
  get_by_id task_id st = (Ok (instance task_id <$> table st !! task_id), st).
Proof. reflexivity. Qed.

Lemma get_task_by_id_owner task_id task st :
  get_by_id task_id st = (Ok (Some task), st) →
  get_task_by_id task_id (Task.user task) st = (Ok task, st).
Proof.
  intros H. unfold get_task_by_id, mbind, M_bind. rewrite H.
  unfold lift, check_task_ownership. by rewrite bool_decide_false by auto.
Qed.

Lemma get_task_by_id_other task_id task requester st :
  get_by_id task_id st = (Ok (Some task), st) →
  Task.user task ≠ requester →
  get_task_by_id task_id requester st = (Raise forbidden, st).
Proof.
  intros H Hne. unfold get_task_by_id, mbind, M_bind. rewrite H.
  unfold lift, check_task_ownership. by rewrite bool_decide_true by auto.
Qed.

Lemma get_task_by_id_missing task_id requester st :
  get_by_id task_id st = (Ok None, st) →
  get_task_by_id task_id requester st = (Raise not_found, st).
Proof. intros H. unfold get_task_by_id, mbind, M_bind. by rewrite H. Qed.

Lemma store_eta st : {| table := table st; next_id := next_id st |} = st.
Proof. by destruct st. Qed.

Lemma columns_instance pk r : columns (instance pk r) = r.
Proof. by destruct r. Qed.

Lemma instance_columns task : instance (Task.id task) (columns task) = task.
Proof. by destruct task. Qed.

(** ** Ownership *)

(** C1: when the requester is not the owner of a stored task,
    [get_task_by_id], [update_task] and [delete_task] each fail with
    [PermissionDenied] (Forbidden) and leave the store, hence the task, as
    it was. *)
Theorem non_owner_is_forbidden st task_id task requester title description :
  get_by_id task_id st = (Ok (Some task), st) →
  Task.user task ≠ requester →
  get_task_by_id task_id requester st = (Raise forbidden, st)
  ∧ update_task task_id requester title description st = (Raise forbidden, st)
  ∧ delete_task task_id requester st = (Raise forbidden, st).
Proof.
  intros Hget Hne.
  pose proof (get_task_by_id_other _ _ _ _ Hget Hne) as Hden.
  split; [done|].
  unfold update_task, delete_task, mbind, M_bind. by rewrite Hden.
Qed.

Lemma non_owner_is_forbidden_witness :
  get_by_id 1 milk_store = (Ok (Some buy_milk), milk_store)
  ∧ Task.user buy_milk ≠ 2
  ∧ update_task 1 2 (Some (lit "Mine now")) None milk_store
    = (Raise forbidden, milk_store).
Proof.
  assert (H1 : get_by_id 1 milk_store = (Ok (Some buy_milk), milk_store))
    by (vm_compute; reflexivity).
  assert (H2 : Task.user buy_milk ≠ 2) by (simpl; lia).
  split; [exact H1|]. split; [exact H2|].
  exact (proj1 (proj2
    (non_owner_is_forbidden milk_store 1 buy_milk 2
       (Some (lit "Mine now")) None H1 H2))).
Defined.

(** ** Creation *)

(** C5: with a title whose trimmed length is in [3, 200] and a description
    of at most 1000 characters, [create_task] succeeds; the task it returns
    has the trimmed title, the trimmed description and the given owner, and
    is the task stored under its id. *)
Theorem create_task_valid st now owner t d :
  3 ≤ len (strip t) ≤ 200 →
  len d ≤ 1000 →
  ∃ task st',
    create_task now owner (Some t) (Some d) st = (Ok task, st')
    ∧ Task.title task = strip t
    ∧ Task.description task = strip d
    ∧ Task.user task = owner
    ∧ get_by_id (Task.id task) st' = (Ok (Some task), st').
Proof.
  intros Ht Hd. unfold create_task, mbind, M_bind, lift.
  rewrite validate_task_data_ok by done. simpl strip_method. cbv iota beta.
  assert (Hd' : (if truthy (Some d) then Ok (strip d) else Ok [])
                = Ok (strip d)) by (by destruct d).
  rewrite Hd'. cbv iota beta. unfold create.
  eexists _, _. split; [reflexivity|].
  repeat split. unfold get_by_id. simpl. by rewrite lookup_insert_eq.
Qed.

Lemma create_task_valid_witness :
  ∃ task st',
    create_task 10 1 (Some (lit "  Buy milk ")) (Some (lit " 2% ")) empty_store
    = (Ok task, st')
    ∧ Task.title task = strip (lit "  Buy milk ")
    ∧ Task.description task = strip (lit " 2% ")
    ∧ Task.user task = 1
    ∧ get_by_id (Task.id task) st' = (Ok (Some task), st').
Proof.
  apply (create_task_valid empty_store 10 1 (lit "  Buy milk ") (lit " 2% ")).
  - vm_compute. split; discriminate.
  - vm_compute. discriminate.
Defined.

(** C6: with an absent title or one whose trimmed length is below 3 or
    above 200 (an empty or whitespace-only title has trimmed length 0),
    [create_task] fails with a [ValidationError] (InvalidInput) and the
    store is exactly as before. *)
Theorem create_task_invalid_title st now owner title description :
  match title with
  | None => True
  | Some t => len (strip t) < 3 ∨ 200 < len (strip t)
  end →
  ∃ msg,
    create_task now owner title description st
    = (Raise (ValidationError msg), st).
Proof.
  intros Ht.
  destruct (validate_task_data_bad_title title description Ht) as [msg Hmsg].
  exists msg. unfold create_task, mbind, M_bind, lift. by rewrite Hmsg.
Qed.

Lemma create_task_invalid_title_witness :
  ∃ msg,
    create_task 10 1 (Some (lit "  ab  ")) (Some (lit "2%")) milk_store
    = (Raise (ValidationError msg), milk_store).
Proof.
  apply (create_task_invalid_title milk_store 10 1 (Some (lit "  ab  "))).
  left. vm_compute. reflexivity.
Defined.

(** ** Updates *)

(** C10: an update by the owner that supplies neither title nor
    description succeeds, returns the task as stored and leaves the store
    exactly as it was. *)
Theorem update_task_nothing st task_id task owner :
  get_by_id task_id st = (Ok (Some task), st) →
  Task.user task = owner →
  update_task task_id owner None None st = (Ok task, st)
  ∧ get_by_id task_id st = (Ok (Some task), st).
Proof.
  intros Hget <-. split; [|done].
  pose proof (get_task_by_id_owner _ _ _ Hget) as Hown.
  apply get_by_id_Some in Hget as [Hrow Hid].
  unfold update_task, mbind, M_bind. rewrite Hown.
  unfold mret, M_ret, update, mbind, M_bind, save, mret, M_ret.
  rewrite Hid, insert_id by done. by rewrite store_eta.
Qed.

Lemma update_task_nothing_witness :
  update_task 1 1 None None milk_store = (Ok buy_milk, milk_store).
Proof.
  refine (proj1 (update_task_nothing milk_store 1 buy_milk 1 _ _)).
  - vm_compute. reflexivity.
  - reflexivity.
Defined.

(** C7: an update by the owner with no title and a description changes the
    description only (to the trimmed text): the task returned and stored
    keeps its id, owner, title and creation time, and no other row of the
    table changes. *)
Theorem update_task_description_only st task_id task owner d :
  get_by_id task_id st = (Ok (Some task), st) →
  Task.user task = owner →
  ∃ task' st',
    update_task task_id owner None (Some d) st = (Ok task', st')
    ∧ get_by_id task_id st' = (Ok (Some task'), st')
    ∧ Task.description task' = strip d
    ∧ Task.title task' = Task.title task
    ∧ Task.created_at task' = Task.created_at task
    ∧ Task.id task' = Task.id task
    ∧ Task.user task' = Task.user task
    ∧ ∀ other, other ≠ task_id →
        (get_by_id other st').1 = (get_by_id other st).1.
Proof.
  intros Hget <-.
  pose proof (get_task_by_id_owner _ _ _ Hget) as Hown.
  apply get_by_id_Some in Hget as [Hrow Hid].
  unfold update_task, mbind, M_bind. rewrite Hown.
  unfold mret, M_ret, lift, update, mbind, M_bind, save, mret, M_ret.
  simpl. eexists _, _. split; [reflexivity|].
  rewrite Hid. split_and!; try done.
  - unfold get_by_id. simpl. rewrite lookup_insert_eq. simpl.
    subst task_id. by destruct task.
  - intros other Hne. unfold get_by_id. simpl.
    by rewrite lookup_insert_ne.
Qed.

Lemma update_task_description_only_witness :
  ∃ task' st',
    update_task 1 1 None (Some (lit "x")) milk_store = (Ok task', st')
    ∧ get_by_id 1 st' = (Ok (Some task'), st')
    ∧ Task.description task' = strip (lit "x")
    ∧ Task.title task' = Task.title buy_milk
    ∧ Task.created_at task' = Task.created_at buy_milk
    ∧ Task.id task' = Task.id buy_milk
    ∧ Task.user task' = Task.user buy_milk
    ∧ ∀ other, other ≠ 1 →
        (get_by_id other st').1 = (get_by_id other milk_store).1.
Proof.
  apply (update_task_description_only milk_store 1 buy_milk 1 (lit "x")).
  - vm_compute. reflexivity.
  - reflexivity.
Defined.

(** ** Deletion *)

(** [delete_task] by the owner of a stored task succeeds; afterwards the
    id is no longer in the table and [get_task_by_id] for it raises the
    [ValidationError] the service raises for an id that is not there. *)
Theorem delete_task_then_get st task_id task owner :
  get_by_id task_id st = (Ok (Some task), st) →
  Task.user task = owner →
  ∃ st',
    delete_task task_id owner st = (Ok tt, st')
    ∧ get_by_id task_id st' = (Ok None, st')
    ∧ get_task_by_id task_id owner st' = (Raise not_found, st').
Proof.
  intros Hget <-.
  pose proof (get_task_by_id_owner _ _ _ Hget) as Hown.
  apply get_by_id_Some in Hget as [_ Hid].
  unfold delete_task, mbind, M_bind. rewrite Hown. unfold delete.
  eexists. split; [reflexivity|].
  assert (Hnone : get_by_id task_id
            {| table := base.delete (Task.id task) (table st);
               next_id := next_id st |}
          = (Ok None, {| table := base.delete (Task.id task) (table st);
                         next_id := next_id st |})).
  { apply get_by_id_None. simpl. rewrite Hid. apply lookup_delete_eq. }
  split; [done|]. by apply get_task_by_id_missing.
Qed.

Lemma delete_task_then_get_witness :
  ∃ st',
    delete_task 1 1 milk_store = (Ok tt, st')
    ∧ get_by_id 1 st' = (Ok None, st')
    ∧ get_task_by_id 1 1 st' = (Raise not_found, st').
Proof.
  apply (delete_task_then_get milk_store 1 buy_milk 1).
  - vm_compute. reflexivity.
  - reflexivity.
Defined.

(** C8: what the code does for a get after a deletion. The owner's
    [delete_task] succeeds and the id is gone from the table; the
    [get_task_by_id] that follows raises a [ValidationError], the class of
    field validation failures, and the view answers it with status 400,
    which its schema does not declare (404 is declared). *)
Theorem get_after_delete_raises_validation_error :
  delete_task 1 1 milk_store = (Ok tt, deleted_store)
  ∧ get_by_id 1 deleted_store = (Ok None, deleted_store)
  ∧ get_task_by_id 1 1 deleted_store
    = (Raise (ValidationError "Tarea no encontrada"), deleted_store)
  ∧ create_task 10 1 (Some (lit "ab")) None deleted_store
    = (Raise (ValidationError "El título debe tener al menos 3 caracteres"),
       deleted_store)
  ∧ status (get 1 1 deleted_store).1 = 400
  ∧ (400 ∉ get_responses)
  ∧ (404 ∈ get_responses).
Proof.
  split_and!; try (vm_compute; reflexivity).
  - unfold get_responses. rewrite !elem_of_cons, elem_of_nil. lia.
  - unfold get_responses. rewrite !elem_of_cons. lia.
Qed.

(** ** Listing *)

#[global] Instance created_at_desc_total : Total created_at_desc.
Proof. intros x y. unfold created_at_desc. lia. Qed.

#[global] Instance created_at_desc_trans : Transitive created_at_desc.
Proof. intros x y z. unfold created_at_desc. lia. Qed.

Lemma elem_of_objects x st :
  x ∈ objects st ↔ get_by_id (Task.id x) st = (Ok (Some x), st).
Proof.
  unfold objects. rewrite list_elem_of_fmap. split.
  - intros [[k r] [-> Hkr]]. apply elem_of_map_to_list in Hkr.
    unfold get_by_id. simpl. by rewrite Hkr.
  - intros Hget. apply get_by_id_Some in Hget as [Hrow _].
    exists (Task.id x, columns x). split.
    + simpl. by rewrite instance_columns.
    + by apply elem_of_map_to_list.
Qed.

Lemma NoDup_objects st : NoDup (objects st).
Proof.
  unfold objects. apply NoDup_fmap_2_strong; [|apply NoDup_map_to_list].
  intros [k r] [k' r'] _ _ Heq. simpl in Heq.
  assert (k = k') as <- by (by injection Heq).
  f_equal. by rewrite <- (columns_instance k r), Heq, columns_instance.
Qed.

(** C9: [get_user_tasks] never fails and returns what [get_by_user]
    returns: each stored task of that owner, once, and nothing else, in
    descending order of [created_at]; the store is not touched. *)
Theorem get_user_tasks_spec st owner :
  ∃ tasks,
    get_user_tasks owner st = (Ok tasks, st)
    ∧ get_by_user owner st = (Ok tasks, st)
    ∧ (∀ x, x ∈ tasks ↔
            get_by_id (Task.id x) st = (Ok (Some x), st) ∧ Task.user x = owner)
    ∧ NoDup tasks
    ∧ StronglySorted created_at_desc tasks.
Proof.
  eexists. split; [reflexivity|]. split; [reflexivity|].
  split_and!.
  - intros x. rewrite merge_sort_Permutation, list_elem_of_filter.
    rewrite elem_of_objects. tauto.
  - rewrite merge_sort_Permutation. apply NoDup_filter, NoDup_objects.
  - apply StronglySorted_merge_sort; apply _.
Qed.

(** ** The failure for a missing task *)

Lemma handle_service_exceptions_validation msg :
  status (handle_service_exceptions (Raise (ValidationError msg))) = 400.
Proof. reflexivity. Qed.

(** C2: what the code does for an id that is not in the table.
    [get_task_by_id] raises a [ValidationError], the exception class that
    field validation raises; the view answers both with status 400, which
    is not among the statuses its schema declares (404 is). *)
Theorem missing_task_raises_validation_error :
  get_task_by_id 1 1 empty_store
  = (Raise (ValidationError "Tarea no encontrada"), empty_store)
  ∧ create_task 10 1 (Some (lit "ab")) None empty_store
    = (Raise (ValidationError "El título debe tener al menos 3 caracteres"),
       empty_store)
  ∧ status (get 1 1 empty_store).1 = 400
  ∧ (400 ∉ get_responses)
  ∧ (404 ∈ get_responses).
Proof.
  split_and!; try reflexivity.
  - unfold get_responses. rewrite !elem_of_cons, elem_of_nil. lia.
  - unfold get_responses. rewrite !elem_of_cons. lia.
Qed.

(** ** Validation on update *)

Lemma update_task_owner_run st task_id task title description :
  get_by_id task_id st = (Ok (Some task), st) →
  update_task task_id (Task.user task) title description st
  = (title' ← match title with
              | Some _ =>
                  _ ← lift (validate_task_data title
                       (Some (or_else description (Task.description task))));
                  s ← lift (strip_method title);
                  mret (Some s)
              | None => mret None
              end;
     description' ← match description with
                    | Some _ =>
                        s ← lift (strip_method description); mret (Some s)
                    | None => mret None
                    end;
     update task title' description') st.
Proof.
  intros Hget. unfold update_task at 1, mbind at 1, M_bind at 1.
  by rewrite (get_task_by_id_owner _ _ _ Hget).
Qed.

(** C3 as stated fails: a description-only update does not re-validate
    the stored title. Over a row whose title has two characters, which
    [validate_task_data] rejects, the update succeeds. *)
Lemma update_description_only_skips_validation :
  get_by_id 1 short_title_store = (Ok (Some short_title_task), short_title_store)
  ∧ Task.user short_title_task = 1
  ∧ validate_task_data (Some (Task.title short_title_task)) (Some (lit "x"))
    = Raise (ValidationError "El título debe tener al menos 3 caracteres")
  ∧ (update_task 1 1 None (Some (lit "x")) short_title_store).1
    = Ok (Task.set_description short_title_task (lit "x")).
Proof. split_and!; vm_compute; reflexivity. Qed.

(** C3, amended: an update by the owner that supplies a title runs
    [validate_task_data] on that title and on the supplied description, or
    on the stored one when none or an empty one is supplied; its failure is
    a [ValidationError], returned with nothing written, and when it passes
    the update is made with the trimmed fields. With the title absent the
    stored title is not re-validated: whatever it is, a description of at
    most 1000 characters is stored. *)
Theorem update_task_validates_supplied_title st task_id task owner t description :
  get_by_id task_id st = (Ok (Some task), st) →
  Task.user task = owner →
  (∀ e,
     validate_task_data (Some t)
       (Some (or_else description (Task.description task))) = Raise e →
     (∃ msg, e = ValidationError msg)
     ∧ update_task task_id owner (Some t) description st = (Raise e, st))
  ∧ (validate_task_data (Some t)
       (Some (or_else description (Task.description task))) = Ok tt →
     ∃ task' st',
       update_task task_id owner (Some t) description st = (Ok task', st')
       ∧ Task.title task' = strip t
       ∧ Task.description task'
         = match description with
           | Some d => strip d
           | None => Task.description task
           end
       ∧ get_by_id task_id st' = (Ok (Some task'), st'))
  ∧ (∀ d, len d ≤ 1000 →
     ∃ task' st',
       update_task task_id owner None (Some d) st = (Ok task', st')
       ∧ Task.title task' = Task.title task
       ∧ Task.description task' = strip d
       ∧ get_by_id task_id st' = (Ok (Some task'), st')).
Proof.
  intros Hget <-. pose proof (get_by_id_Some _ _ _ Hget) as [_ Hid].
  assert (Hsaved : ∀ task',
            Task.id task' = task_id →
            get_by_id task_id
              {| table := <[Task.id task' := columns task']> (table st);
                 next_id := next_id st |}
            = (Ok (Some task'),
               {| table := <[Task.id task' := columns task']> (table st);
                  next_id := next_id st |})).
  { intros task' Hk. unfold get_by_id. cbn [table].
    rewrite Hk, lookup_insert_eq. cbn [fmap option_fmap option_map].
    rewrite <- Hk at 1. by rewrite instance_columns. }
  split_and!.
  - intros e He. split; [by eapply validate_task_data_raises|].
    rewrite update_task_owner_run by done.
    unfold mbind, M_bind, lift. by rewrite He.
  - intros Hok. rewrite update_task_owner_run by done.
    unfold mbind, M_bind, lift. rewrite Hok. simpl.
    destruct description as [d|]; simpl; eexists _, _;
      (split_and!; [reflexivity|done|done|by apply Hsaved]).
  - intros d _. rewrite update_task_owner_run by done.
    simpl. eexists _, _.
    split_and!; [reflexivity|done|done|by apply Hsaved].
Qed.

Lemma update_task_validates_supplied_title_witness :
  (∀ e,
     validate_task_data (Some (lit " c "))
       (Some (or_else None (Task.description buy_milk))) = Raise e →
     (∃ msg, e = ValidationError msg)
     ∧ update_task 1 1 (Some (lit " c ")) None milk_store = (Raise e, milk_store))
  ∧ update_task 1 1 (Some (lit " c ")) None milk_store
    = (Raise (ValidationError "El título debe tener al menos 3 caracteres"),
       milk_store).
Proof.
  assert (H := update_task_validates_supplied_title milk_store 1 buy_milk 1
                 (lit " c ") None).
  destruct H as (Hfail & _ & _).
  - vm_compute. reflexivity.
  - reflexivity.
  - split; [exact Hfail|]. apply Hfail. vm_compute. reflexivity.
Defined.

(** ** The bound on stored descriptions *)

Lemma description_invariant_rows st :
  description_invariant st ↔
  ∀ k r, table st !! k = Some r →
         len (row_description r) ≤ 1000 ∧ trimmed (row_description r).
Proof.
  unfold description_invariant. split.
  - intros H k r Hr. apply (H k (instance k r)).
    unfold get_by_id. by rewrite Hr.
  - intros H k task Hget. apply get_by_id_Some in Hget as [Hrow _].
    apply (H _ _ Hrow).
Qed.

Lemma description_invariant_empty : description_invariant empty_store.
Proof.
  apply description_invariant_rows. intros k r. simpl. by rewrite lookup_empty.
Qed.

Lemma description_invariant_insert st k r n :
  description_invariant st →
  len (row_description r) ≤ 1000 →
  trimmed (row_description r) →
  description_invariant {| table := <[k := r]> (table st); next_id := n |}.
Proof.
  rewrite !description_invariant_rows. intros H Hlen Htrim k' r'. simpl.
  rewrite lookup_insert. case_decide.
  - by intros [= <-].
  - apply H.
Qed.

Lemma get_task_by_id_inv task_id user st r st' :
  get_task_by_id task_id user st = (r, st') →
  st' = st ∧ ∀ task, r = Ok task → get_by_id task_id st = (Ok (Some task), st).
Proof.
  unfold get_task_by_id, mbind, M_bind. rewrite get_by_id_lookup.
  destruct (table st !! task_id) as [row|]; simpl.
  - unfold lift. destruct (check_task_ownership _ _) as [[]|e].
    + intros [= <- <-]. split; [done|]. by intros task [= <-].
    + by intros [= <- <-].
  - by intros [= <- <-].
Qed.

(** [create_task] keeps the bound. *)
Lemma create_task_description_invariant now owner title description st r st' :
  description_invariant st →
  create_task now owner title description st = (r, st') →
  description_invariant st'.
Proof.
  intros Hinv. unfold create_task, mbind, M_bind, lift.
  destruct (validate_task_data title description) as [[]|e] eqn:Hval;
    [|by intros [= <- <-]].
  apply validate_task_data_ok_inv in Hval as (t & -> & _ & Hd). simpl.
  destruct description as [[|c d]|]; simpl; unfold create; intros [= <- <-].
  - by apply description_invariant_insert.
  - specialize (Hd eq_refl). simpl in Hd.
    pose proof (len_strip_le (c :: d)).
    apply description_invariant_insert; [done|simpl; lia|apply trimmed_strip].
  - by apply description_invariant_insert.
Qed.

(** [update_task] keeps the bound when a title is supplied: the
    description, or the stored one, goes through [validate_task_data]. *)
Lemma update_task_title_description_invariant task_id user t description st r st' :
  description_invariant st →
  update_task task_id user (Some t) description st = (r, st') →
  description_invariant st'.
Proof.
  intros Hinv. unfold update_task, mbind at 1, M_bind at 1.
  destruct (get_task_by_id task_id user st) as [r0 st0] eqn:Hg.
  apply get_task_by_id_inv in Hg as [-> Hok].
  destruct r0 as [task|e]; [|by intros [= <- <-]].
  specialize (Hok task eq_refl). unfold mbind, M_bind, lift.
  destruct (validate_task_data _ _) as [[]|e] eqn:Hval; [|by intros [= <- <-]].
  apply validate_task_data_ok_inv in Hval as (? & _ & _ & Hd). simpl.
  destruct description as [d|]; simpl; unfold save; intros [= <- <-];
    apply description_invariant_insert; simpl; try done.
  - destruct d as [|c d]; [done|]. specialize (Hd eq_refl). simpl in Hd.
    pose proof (len_strip_le (c :: d)). lia.
  - apply trimmed_strip.
  - by apply (Hinv _ _ Hok).
  - by apply (Hinv _ _ Hok).
Qed.

Lemma milk_store_description_invariant : description_invariant milk_store.
Proof.
  eapply create_task_description_invariant; [apply description_invariant_empty|].
  unfold milk_store. apply surjective_pairing.
Qed.

(** C4: what the code does with a description of 1001 characters sent
    without a title. The store before satisfies the bound; the update
    succeeds and the stored description has 1001 characters, so the bound
    no longer holds. *)
Theorem update_task_stores_long_description :
  description_invariant milk_store
  ∧ len long_description = 1001
  ∧ update_task 1 1 None (Some long_description) milk_store
    = (Ok (Task.set_description buy_milk long_description), long_store)
  ∧ get_by_id 1 long_store
    = (Ok (Some (Task.set_description buy_milk long_description)), long_store)
  ∧ ¬ description_invariant long_store.
Proof.
  assert (Hget : get_by_id 1 long_store
            = (Ok (Some (Task.set_description buy_milk long_description)),
               long_store)) by (vm_compute; reflexivity).
  split_and!.
  - apply milk_store_description_invariant.
  - reflexivity.
  - vm_compute. reflexivity.
  - exact Hget.
  - intros Hinv. destruct (Hinv _ _ Hget) as [Hlen _].
    vm_compute in Hlen. by apply Hlen.
Qed.

(** * Further properties of the service *)

(** ** What validation accepts *)

(** X1: [validate_task_data] passes exactly when a title is given whose
    trimmed length is between 3 and 200 and the description, if any and not
    empty, has at most 1000 characters. *)
Theorem validate_task_data_accepts title description :
  validate_task_data title description = Ok tt ↔
  ∃ t, title = Some t ∧ 3 ≤ len (strip t) ≤ 200
       ∧ (truthy description = true → len (default [] description) ≤ 1000).
Proof.
  split.
  - apply validate_task_data_ok_inv.
  - intros (t & -> & Ht & Hd). by apply validate_task_data_ok.
Qed.

Lemma validate_task_data_strip t description :
  validate_task_data (Some (strip t)) description
  = validate_task_data (Some t) description.
Proof.
  unfold validate_task_data. rewrite strip_idemp.
  rewrite !truthy_len. pose proof (len_strip_le t).
  destruct (bool_decide (0 < len (strip t))) eqn:Hs.
  - apply bool_decide_eq_true in Hs. by rewrite bool_decide_true by lia.
  - by destruct (bool_decide (0 < len t)).
Qed.

(** X2: white space around the title makes no difference to
    [create_task]: it answers for a title as for the trimmed title. *)
Theorem create_task_title_whitespace now owner t description st :
  create_task now owner (Some (strip t)) description st
  = create_task now owner (Some t) description st.
Proof.
  unfold create_task, mbind, M_bind, lift.
  rewrite validate_task_data_strip. simpl strip_method. by rewrite strip_idemp.
Qed.

(** X3: the description is measured before it is trimmed. With a valid
    title, a description of more than 1000 characters makes [create_task]
    fail and write nothing, however short the trimmed description is. *)
Theorem create_task_long_description now owner t d st :
  3 ≤ len (strip t) ≤ 200 →
  1000 < len d →
  create_task now owner (Some t) (Some d) st
  = (Raise (ValidationError "La descripción no puede exceder 1000 caracteres"),
     st).
Proof.
  intros Ht Hd. unfold create_task, mbind, M_bind, lift, validate_task_data.
  pose proof (len_strip_le t) as Hle.
  rewrite !truthy_len, !bool_decide_true by lia. simpl.
  destruct (Z.ltb_spec (len (strip t)) 3); [lia|].
  rewrite Z.gtb_ltb. destruct (Z.ltb_spec 200 (len (strip t))); [lia|].
  rewrite Z.gtb_ltb. destruct (Z.ltb_spec 1000 (len d)); [done|lia].
Qed.

Lemma create_task_long_description_witness :
  len (strip padded_description) = 1
  ∧ create_task 10 1 (Some (lit "Buy milk")) (Some padded_description) empty_store
    = (Raise (ValidationError "La descripción no puede exceder 1000 caracteres"),
       empty_store).
Proof.
  split; [vm_compute; reflexivity|].
  apply (create_task_long_description 10 1 (lit "Buy milk") padded_description).
  - vm_compute. split; discriminate.
  - vm_compute. reflexivity.
Defined.

(** ** The shape of every outcome *)

Lemma stored_lookup st task :
  stored st task ↔ table st !! Task.id task = Some (columns task).
Proof.
  unfold stored. split.
  - intros H. by apply get_by_id_Some in H as [H _].
  - intros H. unfold get_by_id. rewrite H. simpl. by rewrite instance_columns.
Qed.

Lemma get_by_id_stored task_id task st :
  get_by_id task_id st = (Ok (Some task), st) ↔
  Task.id task = task_id ∧ stored st task.
Proof.
  split.
  - intros H. pose proof (get_by_id_Some _ _ _ H) as [_ <-]. by split.
  - by intros [<- H].
Qed.

Lemma get_task_by_id_cases task_id user st :
  (get_by_id task_id st = (Ok None, st)
   ∧ get_task_by_id task_id user st = (Raise not_found, st))
  ∨ (∃ task, get_by_id task_id st = (Ok (Some task), st)
       ∧ Task.user task ≠ user
       ∧ get_task_by_id task_id user st = (Raise forbidden, st))
  ∨ (∃ task, get_by_id task_id st = (Ok (Some task), st)
       ∧ Task.user task = user
       ∧ get_task_by_id task_id user st = (Ok task, st)).
Proof.
  destruct (table st !! task_id) as [r|] eqn:Hr.
  - assert (Hget : get_by_id task_id st = (Ok (Some (instance task_id r)), st))
      by (unfold get_by_id; by rewrite Hr).
    destruct (decide (Task.user (instance task_id r) = user)) as [Hu|Hu].
    + right. right. eexists. split_and!; [done|done|].
      rewrite <- Hu. by apply get_task_by_id_owner.
    + right. left. eexists. split_and!; [done|done|].
      by eapply get_task_by_id_other.
  - left. assert (Hget : get_by_id task_id st = (Ok None, st))
      by by apply get_by_id_None.
    split; [done|]. by apply get_task_by_id_missing.
Qed.

(** The fields [update_task] writes. *)
Lemma update_task_cases task_id user title description st r st' :
  update_task task_id user title description st = (r, st') →
  (∃ e, r = Raise e ∧ st' = st
        ∧ ((∃ msg, e = ValidationError msg) ∨ e = forbidden))
  ∨ (∃ task,
       get_by_id task_id st = (Ok (Some task), st)
       ∧ Task.user task = user
       ∧ (∀ t, title = Some t → 3 ≤ len (strip t) ≤ 200)
       ∧ r = Ok {| Task.id := task_id; Task.user := user;
                   Task.title := from_option strip (Task.title task) title;
                   Task.description :=
                     from_option strip (Task.description task) description;
                   Task.created_at := Task.created_at task |}
       ∧ st' = {| table :=
                    <[task_id :=
                        {| row_user := user;
                           row_title := from_option strip (Task.title task) title;
                           row_description :=
                             from_option strip (Task.description task) description;
                           row_created_at := Task.created_at task |}]> (table st);
                  next_id := next_id st |}).
Proof.
  destruct (get_task_by_id_cases task_id user st)
    as [[_ Hg]|[(task & _ & _ & Hg)|(task & Hget & Hu & Hg)]].
  - unfold update_task, mbind, M_bind. rewrite Hg. intros [= <- <-].
    left. eexists. split_and!; [done..|]. left. by eexists.
  - unfold update_task, mbind, M_bind. rewrite Hg. intros [= <- <-].
    left. eexists. split_and!; [done..|]. by right.
  - subst user. rewrite update_task_owner_run by done.
    pose proof (get_by_id_Some _ _ _ Hget) as [_ Hid].
    destruct title as [t|]; unfold mbind at 1, M_bind at 1, lift.
    + unfold mbind at 1, M_bind at 1.
      destruct (validate_task_data _ _) as [[]|e] eqn:Hval.
      * apply validate_task_data_ok_inv in Hval as (? & [= <-] & Ht & _).
        destruct description as [d|];
          cbv [update save mbind M_bind mret M_ret strip_method lift];
          simpl; rewrite Hid; intros [= <- <-]; right; exists task;
          split_and!;
          first [done | by intros ? [= <-] | subst task_id; by destruct task].
      * intros [= <- <-]. left. eexists. split_and!; [done..|]. left.
        by eapply validate_task_data_raises.
    + destruct description as [d|];
        cbv [update save mbind M_bind mret M_ret strip_method lift];
        simpl; rewrite Hid; intros [= <- <-]; right; exists task;
        split_and!; try done; subst task_id; by destruct task.
Qed.

Lemma create_task_cases now user title description st r st' :
  create_task now user title description st = (r, st') →
  (∃ msg, r = Raise (ValidationError msg) ∧ st' = st)
  ∨ (∃ t, title = Some t
       ∧ 3 ≤ len (strip t) ≤ 200
       ∧ r = Ok {| Task.id := next_id st; Task.user := user;
                   Task.title := strip t;
                   Task.description := from_option strip [] description;
                   Task.created_at := now |}
       ∧ st' = {| table :=
                    <[next_id st :=
                        {| row_user := user; row_title := strip t;
                           row_description := from_option strip [] description;
                           row_created_at := now |}]> (table st);
                  next_id := next_id st + 1 |}).
Proof.
  unfold create_task, mbind, M_bind, lift.
  destruct (validate_task_data title description) as [[]|e] eqn:Hval.
  - apply validate_task_data_ok_inv in Hval as (t & -> & Ht & _). simpl.
    destruct description as [[|c d]|]; simpl; unfold create; intros [= <- <-];
      right; exists t; split_and!; first [done | reflexivity | lia].
  - intros [= <- <-]. left.
    apply validate_task_data_raises in Hval as [msg ->]. by exists msg.
Qed.

Lemma delete_task_cases task_id user st r st' :
  delete_task task_id user st = (r, st') →
  (∃ e, r = Raise e ∧ st' = st ∧ (e = not_found ∨ e = forbidden))
  ∨ (∃ task,
       get_by_id task_id st = (Ok (Some task), st)
       ∧ Task.user task = user
       ∧ r = Ok tt
       ∧ st' = {| table := base.delete task_id (table st);
                  next_id := next_id st |}).
Proof.
  unfold delete_task, mbind, M_bind.
  destruct (get_task_by_id_cases task_id user st)
    as [[_ Hg]|[(task & _ & _ & Hg)|(task & Hget & Hu & Hg)]]; rewrite Hg.
  - intros [= <- <-]. left. eexists. split_and!; [done..|]. by left.
  - intros [= <- <-]. left. eexists. split_and!; [done..|]. by right.
  - pose proof (get_by_id_Some _ _ _ Hget) as [_ Hid].
    unfold delete. rewrite Hid. intros [= <- <-]. right. by exists task.
Qed.

(** ** Invariants over sequences of calls *)

Lemma title_invariant_rows st :
  title_invariant st ↔
  ∀ k r, table st !! k = Some r →
         3 ≤ len (row_title r) ≤ 200 ∧ trimmed (row_title r).
Proof.
  unfold title_invariant. split.
  - intros H k r Hr. apply (H k (instance k r)).
    unfold get_by_id. by rewrite Hr.
  - intros H k task Hget. apply get_by_id_Some in Hget as [Hrow _].
    apply (H _ _ Hrow).
Qed.

Lemma title_invariant_empty : title_invariant empty_store.
Proof.
  apply title_invariant_rows. intros k r. simpl. by rewrite lookup_empty.
Qed.

Lemma ids_below_next_empty : ids_below_next empty_store.
Proof. intros k. simpl. rewrite lookup_empty. by intros [? ?]. Qed.

(** What a call does to the table, whatever it answers: nothing, a new row
    under the next key, a row replaced, or a row removed. *)
Lemma after_call_cases st c :
  after_call st c = st
  ∨ (∃ r, row_user r = caller c
       ∧ 3 ≤ len (row_title r) ≤ 200 ∧ trimmed (row_title r)
       ∧ after_call st c
         = {| table := <[next_id st := r]> (table st);
              next_id := next_id st + 1 |})
  ∨ (∃ k old r, table st !! k = Some old
       ∧ row_user old = caller c ∧ row_user r = caller c
       ∧ row_created_at r = row_created_at old
       ∧ (row_title r = row_title old
          ∨ 3 ≤ len (row_title r) ≤ 200 ∧ trimmed (row_title r))
       ∧ after_call st c
         = {| table := <[k := r]> (table st); next_id := next_id st |})
  ∨ (∃ k old, table st !! k = Some old
       ∧ row_user old = caller c
       ∧ after_call st c
         = {| table := base.delete k (table st); next_id := next_id st |}).
Proof.
  destruct c as [now user title description
                |task_id user title description|task_id user]; simpl.
  - destruct (create_task now user title description st) as [r st'] eqn:Hc.
    apply create_task_cases in Hc
      as [(msg & -> & ->)|(t & -> & Ht & -> & ->)]; [by left|].
    right. left.
    exists {| row_user := user; row_title := strip t;
              row_description := from_option strip [] description;
              row_created_at := now |}.
    split_and!; simpl; first [done | lia | apply trimmed_strip].
  - destruct (update_task task_id user title description st) as [r st'] eqn:Hu.
    apply update_task_cases in Hu
      as [(e & -> & -> & _)|(task & Hget & Howner & Ht & -> & ->)]; [by left|].
    apply get_by_id_Some in Hget as [Hrow _].
    right. right. left.
    exists task_id, (columns task),
      {| row_user := user;
         row_title := from_option strip (Task.title task) title;
         row_description := from_option strip (Task.description task) description;
         row_created_at := Task.created_at task |}.
    split_and!; simpl; try done.
    destruct title as [t|]; simpl; [right|by left].
    specialize (Ht t eq_refl). split; [lia|apply trimmed_strip].
  - destruct (delete_task task_id user st) as [r st'] eqn:Hd.
    apply delete_task_cases in Hd
      as [(e & -> & -> & _)|(task & Hget & Howner & -> & ->)]; [by left|].
    apply get_by_id_Some in Hget as [Hrow _].
    right. right. right. by exists task_id, (columns task).
Qed.

Lemma after_call_title_invariant st c :
  title_invariant st → title_invariant (after_call st c).
Proof.
  intros Hinv. pose proof (proj1 (title_invariant_rows st) Hinv) as Hrows.
  destruct (after_call_cases st c)
    as [->|[(r & _ & Hlen & Htrim & ->)
          |[(k & old & r & Hold & _ & _ & _ & Ht & ->)|(k & old & _ & _ & ->)]]];
    [done|..]; apply title_invariant_rows; intros k' r'; simpl.
  - rewrite lookup_insert. case_decide; [by intros [= <-]|apply Hrows].
  - rewrite lookup_insert. case_decide; [|apply Hrows]. intros [= <-].
    destruct Ht as [->|Ht]; [by eapply Hrows|done].
  - rewrite lookup_delete. case_decide; [done|apply Hrows].
Qed.

Lemma after_call_ids_below_next st c :
  ids_below_next st →
  ids_below_next (after_call st c) ∧ next_id st ≤ next_id (after_call st c).
Proof.
  intros Hinv.
  destruct (after_call_cases st c)
    as [->|[(r & _ & _ & _ & ->)
          |[(k & old & r & Hold & _ & _ & _ & _ & ->)|(k & old & _ & _ & ->)]]];
    [done|..]; (split; [|simpl; lia]); intros k'; simpl.
  - rewrite lookup_insert. case_decide; [lia|].
    intros Hk. apply Hinv in Hk. lia.
  - rewrite lookup_insert. case_decide; [|apply Hinv].
    intros _. subst k'. apply Hinv. by rewrite Hold.
  - rewrite lookup_delete. case_decide; [by intros [? ?]|apply Hinv].
Qed.

Lemma after_calls_snoc st cs c :
  after_calls st (cs ++ [c]) = after_call (after_calls st cs) c.
Proof. unfold after_calls. by rewrite foldl_app. Qed.

Lemma after_calls_ids_below_next st cs :
  ids_below_next st →
  ids_below_next (after_calls st cs) ∧ next_id st ≤ next_id (after_calls st cs).
Proof.
  intros Hinv. induction cs as [|c cs IH] using rev_ind; [done|].
  rewrite after_calls_snoc. destruct IH as [IH1 IH2].
  destruct (after_call_ids_below_next (after_calls st cs) c IH1). split; [done|lia].
Qed.

(** X4: the service keeps every stored title trimmed and between 3 and 200
    characters long: if that holds of a store, it holds after any sequence
    of [create_task], [update_task] and [delete_task] calls, whatever their
    arguments and whether they return or raise. *)
Theorem service_keeps_title_invariant st cs :
  title_invariant st → title_invariant (after_calls st cs).
Proof.
  intros Hinv. induction cs as [|c cs IH] using rev_ind; [done|].
  rewrite after_calls_snoc. by apply after_call_title_invariant.
Qed.

Lemma service_keeps_title_invariant_witness :
  title_invariant
    (after_calls empty_store
       [CreateTask 10 1 (Some (lit " Buy milk ")) None;
        UpdateTask 1 1 (Some (lit "x")) (Some long_description);
        UpdateTask 1 1 None (Some long_description);
        CreateTask 20 2 None None]).
Proof.
  apply (service_keeps_title_invariant empty_store).
  intros k task. unfold get_by_id. simpl. rewrite lookup_empty. simpl.
  intros H. discriminate H.
Defined.

(** X5: when every key in use is below the key sequence, [create_task]
    puts the new task under a key that was free, every task stored before
    is stored unchanged after, and nothing else is added. *)
Theorem create_task_uses_fresh_id now user title description st task st' :
  ids_below_next st →
  create_task now user title description st = (Ok task, st') →
  get_by_id (Task.id task) st = (Ok None, st)
  ∧ stored st' task
  ∧ (∀ x, stored st' x ↔ x = task ∨ stored st x)
  ∧ ids_below_next st'.
Proof.
  intros Hinv Hc.
  pose proof (after_call_ids_below_next st
                (CreateTask now user title description) Hinv) as [Hinv' _].
  simpl in Hinv'. rewrite Hc in Hinv'. simpl in Hinv'.
  apply create_task_cases in Hc as [(msg & [=] & _)|(t & -> & Ht & [= ->] & ->)].
  assert (Hfree : table st !! next_id st = None).
  { destruct (table st !! next_id st) eqn:E; [|done].
    assert (next_id st < next_id st) by (apply Hinv; by rewrite E). lia. }
  split_and!; [by apply get_by_id_None| |intros x|done].
  - apply stored_lookup. simpl. by rewrite lookup_insert_eq.
  - rewrite !stored_lookup. simpl. rewrite lookup_insert. case_decide as Hk.
    + split.
      * intros [= Hx]. left. destruct x. simpl in *. by subst.
      * intros [->|Hx]; [done|]. simpl in Hk. rewrite <- Hk, Hfree in Hx. done.
    + split; [by right|]. intros [->|Hx]; [done|done].
Qed.

Lemma create_task_uses_fresh_id_witness :
  ∃ task st',
    create_task 20 2 (Some (lit "Walk dog")) None milk_store = (Ok task, st')
    ∧ Task.id task = 2
    ∧ stored st' buy_milk.
Proof.
  eexists _, _. split; [vm_compute; reflexivity|]. split; [reflexivity|].
  refine (proj2 (proj1 (proj2 (proj2
    (create_task_uses_fresh_id 20 2 (Some (lit "Walk dog")) None milk_store
       _ _ _ _)))  buy_milk) _).
  - intros k [r Hr]. destruct (decide (k = 1)) as [->|Hne]; [done|].
    exfalso. revert Hr. unfold milk_store. simpl.
    rewrite lookup_insert_ne by done. by rewrite lookup_empty.
  - vm_compute. reflexivity.
  - right. vm_compute. reflexivity.
Defined.

(** X6: a call that raises writes nothing, and what the service raises is
    a [ValidationError] or the [PermissionDenied] of the ownership check:
    the [strip] calls never meet [None]. *)
Theorem failed_call_writes_nothing st c e :
  failure st c = Some e →
  after_call st c = st
  ∧ ((∃ msg, e = ValidationError msg) ∨ e = forbidden).
Proof.
  destruct c as [now user title description
                |task_id user title description|task_id user]; simpl.
  - destruct (create_task now user title description st) as [r st'] eqn:Hc.
    apply create_task_cases in Hc as [(msg & -> & ->)|(t & _ & _ & -> & _)];
      simpl; [|done]. intros [= <-]. split; [done|]. left. by exists msg.
  - destruct (update_task task_id user title description st) as [r st'] eqn:Hu.
    apply update_task_cases in Hu as [(e0 & -> & -> & He)|(task0 & _ & _ & _ & -> & _)];
      simpl; [|done]. by intros [= <-].
  - destruct (delete_task task_id user st) as [r st'] eqn:Hd.
    apply delete_task_cases in Hd as [(e0 & -> & -> & He)|(task0 & _ & _ & -> & _)];
      simpl; [|done]. intros [= <-]. split; [done|].
    destruct He as [-> | ->]; [left; by eexists|by right].
Qed.

Lemma failed_call_writes_nothing_witness :
  after_call milk_store (UpdateTask 1 1 (Some (lit "Buy oat milk"))
                           (Some long_description))
  = milk_store
  ∧ after_call milk_store (DeleteTask 1 2) = milk_store.
Proof.
  split.
  - refine (proj1 (failed_call_writes_nothing milk_store
      (UpdateTask 1 1 (Some (lit "Buy oat milk")) (Some long_description))
      (ValidationError "La descripción no puede exceder 1000 caracteres") _)).
    vm_compute. reflexivity.
  - refine (proj1 (failed_call_writes_nothing milk_store (DeleteTask 1 2)
                     forbidden _)).
    vm_compute. reflexivity.
Defined.

(** ** Updates: what is returned is what is stored *)

(** X7: when [update_task] returns a task, it is the task now stored
    under that id, and [get_task_by_id] gives it back to the requester. It
    has the id, owner and creation time of the task stored before; no
    other row and not the key sequence has changed. *)
Theorem update_task_returns_stored task_id user title description st task' st' :
  update_task task_id user title description st = (Ok task', st') →
  get_task_by_id task_id user st' = (Ok task', st')
  ∧ next_id st' = next_id st
  ∧ (∀ other, other ≠ task_id →
       (get_by_id other st').1 = (get_by_id other st).1)
  ∧ ∃ task,
      get_by_id task_id st = (Ok (Some task), st)
      ∧ Task.id task' = Task.id task
      ∧ Task.user task' = Task.user task
      ∧ Task.created_at task' = Task.created_at task.
Proof.
  intros Hu.
  apply update_task_cases in Hu
    as [(e & [=] & _)|(task & Hget & Howner & _ & [= ->] & ->)].
  split_and!.
  - rewrite <- Howner.
    apply (get_task_by_id_owner task_id
             {| Task.id := task_id; Task.user := Task.user task;
                Task.title := _; Task.description := _; Task.created_at := _ |}).
    unfold get_by_id. simpl. by rewrite lookup_insert_eq, Howner.
  - done.
  - intros other Hne. unfold get_by_id. simpl. by rewrite lookup_insert_ne.
  - exists task. apply get_by_id_Some in Hget as Hid. destruct Hid as [_ Hid].
    by split_and!.
Qed.

Lemma update_task_returns_stored_witness :
  ∃ task' st',
    update_task 1 1 (Some (lit " Buy oat milk ")) None milk_store = (Ok task', st')
    ∧ get_task_by_id 1 1 st' = (Ok task', st')
    ∧ Task.title task' = lit "Buy oat milk".
Proof.
  eexists _, _. split; [vm_compute; reflexivity|].
  split; [|vm_compute; reflexivity].
  refine (proj1 (update_task_returns_stored 1 1 (Some (lit " Buy oat milk "))
                   None milk_store _ _ _)).
  vm_compute. reflexivity.
Defined.

(** ** Isolation between users *)

Lemma after_call_other_user st c x :
  ids_below_next st →
  Task.user x ≠ caller c →
  stored (after_call st c) x ↔ stored st x.
Proof.
  intros Hinv Hne. rewrite !stored_lookup.
  destruct (after_call_cases st c)
    as [->|[(r & Hr & _ & _ & ->)
          |[(k & old & r & Hold & Ho & Hr & _ & _ & ->)
           |(k & old & Hold & Ho & ->)]]];
    [done|..]; simpl.
  - rewrite lookup_insert. case_decide as Hk; [|done]. split.
    + intros [= ->]. by destruct Hne.
    + intros Hx. assert (Task.id x < next_id st) by (apply Hinv; by rewrite Hx).
      lia.
  - rewrite lookup_insert. case_decide as Hk; [|done]. subst k. split.
    + intros [= ->]. by destruct Hne.
    + rewrite Hold. intros [= ->]. by destruct Hne.
  - rewrite lookup_delete. case_decide as Hk; [|done]. subst k.
    rewrite Hold. split; [done|]. intros [= ->]. by destruct Hne.
Qed.

(** X8: calls made by other users do not touch a user's tasks. After any
    sequence of service calls none of which is made by [user], the tasks of
    [user] in the table are exactly those that were there before,
    unchanged. *)
Theorem other_users_calls_leave_tasks st cs user x :
  ids_below_next st →
  Forall (λ c, caller c ≠ user) cs →
  Task.user x = user →
  stored (after_calls st cs) x ↔ stored st x.
Proof.
  intros Hinv Hcs Hx. induction cs as [|c cs IH] using rev_ind; [done|].
  apply Forall_app in Hcs as [Hcs Hc]. rewrite Forall_singleton in Hc.
  rewrite after_calls_snoc, <- (IH Hcs).
  apply after_call_other_user; [|congruence].
  by apply after_calls_ids_below_next.
Qed.

Lemma other_users_calls_leave_tasks_witness :
  stored
    (after_calls milk_store
       [UpdateTask 1 2 (Some (lit "Mine now")) None;
        DeleteTask 1 2;
        CreateTask 20 2 (Some (lit "Walk dog")) None])
    buy_milk.
Proof.
  apply (other_users_calls_leave_tasks milk_store
           [UpdateTask 1 2 (Some (lit "Mine now")) None;
            DeleteTask 1 2;
            CreateTask 20 2 (Some (lit "Walk dog")) None] 1 buy_milk).
  - intros k [r Hr]. destruct (decide (k = 1)) as [->|Hne]; [done|].
    exfalso. revert Hr. unfold milk_store. simpl.
    rewrite lookup_insert_ne by done. by rewrite lookup_empty.
  - repeat constructor; simpl; lia.
  - reflexivity.
  - vm_compute. reflexivity.
Defined.

(** ** A title update checks the stored description *)

(** X9: when the stored description has more than 1000 characters, an
    update by the owner that supplies a title and no description, or an
    empty one, fails on the description and writes nothing, although the
    title is valid and an empty description would have been stored. *)
Theorem update_task_title_checks_stored_description
    st task_id task owner t description :
  get_by_id task_id st = (Ok (Some task), st) →
  Task.user task = owner →
  3 ≤ len (strip t) ≤ 200 →
  1000 < len (Task.description task) →
  description = None ∨ description = Some [] →
  update_task task_id owner (Some t) description st
  = (Raise (ValidationError "La descripción no puede exceder 1000 caracteres"),
     st).
Proof.
  intros Hget <- Ht Hd Hdesc. rewrite update_task_owner_run by done.
  assert (Hor : or_else description (Task.description task)
                = Task.description task) by (by destruct Hdesc as [-> | ->]).
  unfold mbind, M_bind, lift. rewrite Hor.
  unfold validate_task_data. pose proof (len_strip_le t) as Hle.
  rewrite !truthy_len, !bool_decide_true by lia. simpl.
  destruct (Z.ltb_spec (len (strip t)) 3); [lia|].
  rewrite Z.gtb_ltb. destruct (Z.ltb_spec 200 (len (strip t))); [lia|].
  rewrite Z.gtb_ltb.
  destruct (Z.ltb_spec 1000 (len (Task.description task))); [done|lia].
Qed.

Lemma update_task_title_checks_stored_description_witness :
  update_task 1 1 (Some (lit "Buy oat milk")) (Some []) long_store
  = (Raise (ValidationError "La descripción no puede exceder 1000 caracteres"),
     long_store).
Proof.
  apply (update_task_title_checks_stored_description long_store 1
           (Task.set_description buy_milk long_description) 1
           (lit "Buy oat milk") (Some [])).
  - vm_compute. reflexivity.
  - reflexivity.
  - vm_compute. split; discriminate.
  - vm_compute. reflexivity.
  - by right.
Defined.

(** ** The repository's existence test *)

(** X10: [exists] answers without touching the store, and it answers true
    exactly when [get_task_by_id] would return a task to that user. *)
Theorem exists_agrees_with_get_task_by_id task_id user st :
  ∃ b,
    exists_ task_id user st = (Ok b, st)
    ∧ (b = true ↔ ∃ task, get_task_by_id task_id user st = (Ok task, st)).
Proof.
  unfold exists_. eexists. split; [reflexivity|].
  destruct (get_task_by_id_cases task_id user st)
    as [[Hget Hg]|[(task & Hget & Hu & Hg)|(task & Hget & Hu & Hg)]];
    rewrite Hg.
  - apply get_by_id_None in Hget. rewrite Hget.
    split; [done|]. by intros [? [=]].
  - apply get_by_id_Some in Hget as [-> _]. simpl.
    rewrite bool_decide_false by done. split; [done|]. by intros [? [=]].
  - apply get_by_id_Some in Hget as [-> _]. simpl.
    rewrite bool_decide_true by done. split; [by eauto|done].
Qed.

(** ** After a deletion *)

(** X11: a successful [delete_task] removes that row and nothing else, and
    leaves the key sequence; afterwards updating or deleting the same id
    fails with the task-not-found failure and writes nothing. *)
Theorem delete_task_is_final task_id user st st' :
  delete_task task_id user st = (Ok tt, st') →
  next_id st' = next_id st
  ∧ (∀ other, other ≠ task_id →
       (get_by_id other st').1 = (get_by_id other st).1)
  ∧ (∀ requester, delete_task task_id requester st' = (Raise not_found, st'))
  ∧ (∀ requester title description,
       update_task task_id requester title description st'
       = (Raise not_found, st')).
Proof.
  intros Hd.
  apply delete_task_cases in Hd as [(e & [=] & _)|(task & _ & _ & _ & ->)].
  assert (Hmiss : ∀ requester,
            get_task_by_id task_id requester
              {| table := base.delete task_id (table st); next_id := next_id st |}
            = (Raise not_found,
               {| table := base.delete task_id (table st);
                  next_id := next_id st |})).
  { intros requester. apply get_task_by_id_missing, get_by_id_None.
    simpl. apply lookup_delete_eq. }
  split_and!; [done| |intros requester|intros requester title description].
  - intros other Hne. unfold get_by_id. simpl. by rewrite lookup_delete_ne.
  - unfold delete_task, mbind, M_bind. by rewrite Hmiss.
  - unfold update_task, mbind, M_bind. by rewrite Hmiss.
Qed.

Lemma delete_task_is_final_witness :
  ∃ st',
    delete_task 1 1 milk_store = (Ok tt, st')
    ∧ update_task 1 1 (Some (lit "Buy oat milk")) None st'
      = (Raise not_found, st').
Proof.
  eexists. split; [vm_compute; reflexivity|].
  refine (proj2 (proj2 (proj2 (delete_task_is_final 1 1 milk_store _ _)))
            1 (Some (lit "Buy oat milk")) None).
  vm_compute. reflexivity.
Defined.

(** ** Listing after a creation *)

Lemma objects_insert_fresh st k r n :
  table st !! k = None →
  objects {| table := <[k := r]> (table st); next_id := n |}
  ≡ₚ instance k r :: objects st.
Proof.
  intros Hk. unfold objects. simpl.
  by rewrite map_to_list_insert by done.
Qed.

(** X12: after [create_task] returns a task, the owner's list is the old
    list with the new task added (in some order of equal times), every
    other user's list has the tasks it had, and when the new task is
    younger than all of the owner's tasks it comes first. *)
Theorem create_task_extends_listing now user title description st task st' :
  ids_below_next st →
  create_task now user title description st = (Ok task, st') →
  ∃ before after,
    get_user_tasks user st = (Ok before, st)
    ∧ get_user_tasks user st' = (Ok after, st')
    ∧ after ≡ₚ task :: before
    ∧ ((∀ x, x ∈ before → Task.created_at x < now) → head after = Some task)
    ∧ ∀ other, other ≠ user →
        ∃ l l', get_user_tasks other st = (Ok l, st)
                ∧ get_user_tasks other st' = (Ok l', st')
                ∧ l' ≡ₚ l.
Proof.
  intros Hinv Hc.
  apply create_task_cases in Hc as [(msg & [=] & _)|(t & -> & Ht & [= ->] & ->)].
  assert (Hfree : table st !! next_id st = None).
  { destruct (table st !! next_id st) eqn:E; [|done].
    assert (next_id st < next_id st) by (apply Hinv; by rewrite E). lia. }
  unfold get_user_tasks, get_by_user.
  eexists _, _. split; [reflexivity|]. split; [reflexivity|].
  set (new := {| Task.id := next_id st; Task.user := user; Task.title := strip t;
                 Task.description := from_option strip [] description;
                 Task.created_at := now |}).
  assert (Hperm : merge_sort created_at_desc
            (filter (λ x, Task.user x = user)
               (objects {| table := <[next_id st := columns new]> (table st);
                           next_id := next_id st + 1 |}))
          ≡ₚ new :: merge_sort created_at_desc
                      (filter (λ x, Task.user x = user) (objects st))).
  { rewrite !merge_sort_Permutation, objects_insert_fresh by done.
    by rewrite filter_cons_True by done. }
  split_and!; [exact Hperm| |].
  - intros Hyoung.
    pose proof (StronglySorted_merge_sort created_at_desc
      (filter (λ x, Task.user x = user)
         (objects {| table := <[next_id st := columns new]> (table st);
                     next_id := next_id st + 1 |}))) as Hsorted.
    change (columns new) with
      {| row_user := user; row_title := strip t;
         row_description := from_option strip [] description;
         row_created_at := now |} in *.
    destruct (merge_sort _ _) as [|h tl] eqn:Hl.
    { by apply Permutation_nil_cons in Hperm. }
    simpl. f_equal.
    assert (Hh : h ∈ new :: merge_sort created_at_desc
                   (filter (λ x, Task.user x = user) (objects st)))
      by (rewrite <- Hperm; left).
    apply elem_of_cons in Hh as [->|Hh]; [done|].
    apply Hyoung in Hh.
    assert (Hnew : new ∈ h :: tl) by (rewrite Hperm; left).
    apply StronglySorted_inv in Hsorted as [_ Hall].
    apply elem_of_cons in Hnew as [Hnew|Hnew]; [by subst|].
    rewrite Forall_forall in Hall. apply Hall in Hnew.
    unfold created_at_desc in Hnew. simpl in Hnew. lia.
  - intros other Hne. eexists _, _. split; [reflexivity|]. split; [reflexivity|].
    rewrite !merge_sort_Permutation, objects_insert_fresh by done.
    by rewrite filter_cons_False by (simpl; congruence).
Qed.

Lemma create_task_extends_listing_witness :
  ∃ after st',
    get_user_tasks 1
      (create_task 20 1 (Some (lit "Pay rent")) None milk_store).2
    = (Ok after, st')
    ∧ head after = Some (Task.Build 2 1 (lit "Pay rent") [] 20).
Proof.
  destruct (create_task_extends_listing 20 1 (Some (lit "Pay rent")) None
              milk_store (Task.Build 2 1 (lit "Pay rent") [] 20)
              (create_task 20 1 (Some (lit "Pay rent")) None milk_store).2)
    as (before & after & Hb & Ha & _ & Hhead & _).
  - intros k [r Hr]. destruct (decide (k = 1)) as [->|Hne]; [done|].
    exfalso. revert Hr. unfold milk_store. simpl.
    rewrite lookup_insert_ne by done. by rewrite lookup_empty.
  - vm_compute. reflexivity.
  - exists after, (create_task 20 1 (Some (lit "Pay rent")) None milk_store).2.
    split; [exact Ha|]. apply Hhead.
    vm_compute in Hb. injection Hb as <-.
    intros x Hx. apply list_elem_of_singleton in Hx as ->. simpl. lia.
Defined.

(** * Serializers *)

(** ** Field validators *)

(** X13: the serializer's title validator and the service agree: a title
    is accepted by [validate_title] exactly when [validate_task_data]
    accepts it, it is rejected with the same message, and the cleaned value
    is the trimmed title. *)
Theorem validate_title_agrees_with_service value :
  match serializers.validate_title value with
  | serializers.Valid s =>
      validate_task_data value None = Ok tt
      ∧ value = Some (default [] value) ∧ s = strip (default [] value)
      ∧ trimmed s ∧ 3 ≤ len s ≤ 200
  | serializers.Invalid msg =>
      validate_task_data value None = Raise (ValidationError msg)
  end.
Proof.
  unfold serializers.validate_title, validate_task_data.
  destruct value as [v|]; [|done].
  destruct (_ || _); [done|].
  destruct (Z.ltb_spec (len (strip v)) 3); [done|].
  rewrite Z.gtb_ltb. destruct (Z.ltb_spec 200 (len (strip v))); [done|].
  simpl. split_and!; first [done | lia | apply trimmed_strip].
Qed.

Lemma validate_title_valid value s :
  serializers.validate_title value = serializers.Valid s →
  trimmed s ∧ 3 ≤ len s ≤ 200.
Proof.
  unfold serializers.validate_title. destruct value as [v|]; [|done].
  destruct (_ || _); [done|].
  destruct (Z.ltb_spec (len (strip v)) 3); [done|].
  rewrite Z.gtb_ltb. destruct (Z.ltb_spec 200 (len (strip v))); [done|].
  intros [= <-]. split; [apply trimmed_strip|lia].
Qed.

Lemma validate_description_valid value s :
  serializers.validate_description value = serializers.Valid s →
  len s ≤ 1000 ∧ trimmed s.
Proof.
  unfold serializers.validate_description.
  destruct value as [[|c d]|]; simpl; try by intros [= <-].
  rewrite Z.gtb_ltb. destruct (Z.ltb_spec 1000 (len (c :: d))); [done|].
  intros [= <-]. split; [|apply trimmed_strip].
  pose proof (len_strip_le (c :: d)). lia.
Qed.

(** X14: values cleaned by the serializer's validators pass the service
    as they are: [create_task] succeeds on them and stores exactly the
    cleaned title and description, which has at most 1000 characters. *)
Theorem cleaned_values_pass_create_task title description t d now user st :
  serializers.validate_title title = serializers.Valid t →
  serializers.validate_description description = serializers.Valid d →
  len d ≤ 1000
  ∧ ∃ task st',
      create_task now user (Some t) (Some d) st = (Ok task, st')
      ∧ Task.title task = t
      ∧ Task.description task = d
      ∧ Task.user task = user.
Proof.
  intros Ht Hd.
  apply validate_title_valid in Ht as [Htrim Hlen].
  apply validate_description_valid in Hd as [Hdlen Hdtrim].
  split; [done|].
  assert (Hok : validate_task_data (Some t) (Some d) = Ok tt).
  { apply validate_task_data_ok; [by rewrite Htrim|done]. }
  unfold create_task, mbind, M_bind, lift. rewrite Hok.
  simpl strip_method. cbv iota beta.
  assert (Hd' : (if truthy (Some d) then Ok (strip d) else Ok []) = Ok d).
  { destruct d; [done|]. simpl truthy. cbv iota. by rewrite Hdtrim. }
  rewrite Hd'. cbv iota beta. unfold create. eexists _, _.
  split; [reflexivity|]. simpl. by split_and!.
Qed.

Lemma cleaned_values_pass_create_task_witness :
  serializers.validate_title (Some (lit "  Buy milk "))
  = serializers.Valid (lit "Buy milk")
  ∧ ∃ task st',
      create_task 10 1 (Some (lit "Buy milk")) (Some (lit "2%")) empty_store
      = (Ok task, st')
      ∧ Task.title task = lit "Buy milk"
      ∧ Task.description task = lit "2%"
      ∧ Task.user task = 1.
Proof.
  split; [vm_compute; reflexivity|].
  refine (proj2 (cleaned_values_pass_create_task
                   (Some (lit "  Buy milk ")) (Some (lit " 2% "))
                   (lit "Buy milk") (lit "2%") 10 1 empty_store _ _)).
  - vm_compute. reflexivity.
  - vm_compute. reflexivity.
Defined.

(** ** The description preview *)

Lemma len_app (s1 s2 : str) : len (s1 ++ s2) = len s1 + len s2.
Proof. unfold len. rewrite length_app. lia. Qed.

Lemma len_take (n : nat) (s : str) : len (take n s) = Z.min (Z.of_nat n) (len s).
Proof. unfold len. rewrite length_take. lia. Qed.

(** X15: the preview has at most 53 characters and starts as the
    description does; a description of up to 50 characters is its own
    preview, and a longer one gives 50 characters and three dots, so 53
    characters even when the description has 51 or 52. *)
Theorem get_description_preview_bounds obj :
  let preview := serializers.get_description_preview obj in
  len preview ≤ 53
  ∧ take 50 preview = take 50 (Task.description obj)
  ∧ (len (Task.description obj) ≤ 50 → preview = Task.description obj)
  ∧ (50 < len (Task.description obj) →
     preview = take 50 (Task.description obj) ++ lit "..."
     ∧ len preview = 53).
Proof.
  unfold serializers.get_description_preview.
  destruct (Task.description obj) as [|c d] eqn:Hd; simpl truthy; cbv iota.
  { cbv zeta. split_and!; first [done | unfold len; simpl; lia]. }
  rewrite Z.gtb_ltb. destruct (Z.ltb_spec 50 (len (c :: d))) as [Hlt|Hle]; cbv zeta.
  - assert (Hlen : len (take 50 (c :: d) ++ lit "...") = 53).
    { rewrite len_app, len_take. change (len (lit "...")) with 3. lia. }
    split_and!; [lia| |lia|done].
    rewrite take_app_le by (rewrite length_take; unfold len in Hlt; lia).
    by rewrite take_take.
  - split_and!; [lia|done|done|lia].
Qed.

(** ** Words *)

Lemma split_from_concat word (s : list char) :
  concat (split_from word s) = rev word ++ filter visible s.
Proof.
  revert word. induction s as [|c s IH]; intros word; cbn [split_from].
  - destruct word; simpl; by rewrite ?app_nil_r.
  - rewrite filter_cons. destruct (decide (visible c)) as [Hc|Hc].
    + rewrite Hc, IH. simpl. by rewrite <- app_assoc.
    + apply not_false_is_true in Hc. rewrite Hc.
      destruct word; simpl; by rewrite IH.
Qed.

Lemma split_from_words word s :
  Forall visible word →
  Forall (λ w, w ≠ [] ∧ Forall visible w) (split_from word s).
Proof.
  revert word. induction s as [|c s IH]; intros word Hword; simpl.
  - destruct word as [|a word]; [done|]. constructor; [|done]. split.
    + simpl. by destruct (rev word).
    + by apply Forall_rev.
  - destruct (isspace c) eqn:Hc.
    + destruct word as [|a word]; [by apply IH|].
      constructor; [|by apply IH]. split.
      * simpl. by destruct (rev word).
      * by apply Forall_rev.
    + apply IH. by constructor.
Qed.

(** [split] returns the words of a text: none is empty, none
    contains white space, and joined together they are the text with its
    white space removed. *)
Theorem split_words (s : list char) :
  Forall (λ w, w ≠ [] ∧ Forall (λ c, isspace c = false) w) (split s)
  ∧ concat (split s) = filter (λ c, isspace c = false) s.
Proof.
  split.
  - by apply split_from_words.
  - apply (split_from_concat [] s).
Qed.

Example split_sample :
  split (lit "  Buy   oat milk ") = [lit "Buy"; lit "oat"; lit "milk"]
  ∧ split (lit "   ") = [].
Proof. by vm_compute. Qed.

Lemma length_concat_nonempty (ws : list (list char)) :
  Forall (λ w, w ≠ []) ws → (length ws ≤ length (concat ws))%nat.
Proof.
  induction 1 as [|w ws Hw _ IH]; simpl; [lia|].
  rewrite length_app. destruct w; [done|]. simpl. lia.
Qed.

Lemma split_length (s : list char) : (length (split s) ≤ length s)%nat.
Proof.
  destruct (split_words s) as [Hwords Hconcat].
  etransitivity; [apply length_concat_nonempty|].
  - eapply Forall_impl; [exact Hwords|]. by intros w [? _].
  - rewrite Hconcat. apply length_filter.
Qed.

Lemma filter_visible_nil (s : list char) :
  filter visible s = [] → lstrip s = [].
Proof.
  induction s as [|c s IH]; [done|]. rewrite filter_cons.
  destruct (decide (visible c)) as [Hc|Hc]; [done|].
  apply not_false_is_true in Hc. simpl. by rewrite Hc.
Qed.

Lemma split_nil_blank (s : list char) : split s = [] → strip s = [].
Proof.
  intros Hs. destruct (split_words s) as [_ Hconcat].
  rewrite Hs in Hconcat. simpl in Hconcat. symmetry in Hconcat.
  unfold strip. by rewrite (filter_visible_nil s Hconcat).
Qed.

(** X16: the word count of a task whose title is not blank is at least
    one, and it never exceeds the number of characters of title and
    description together. *)
Theorem get_word_count_bounds obj :
  strip (Task.title obj) ≠ [] →
  1 ≤ serializers.get_word_count obj
  ≤ len (Task.title obj) + len (Task.description obj).
Proof.
  intros Htitle. unfold serializers.get_word_count.
  pose proof (split_length (Task.title obj)) as Ht.
  pose proof (split_length (Task.description obj)) as Hd.
  assert (split (Task.title obj) ≠ []) as Hne
    by (intros H; by apply split_nil_blank in H).
  assert (1 ≤ length (split (Task.title obj)))%nat
    by (destruct (split (Task.title obj)); [done|simpl; lia]).
  unfold len. destruct (truthy _); lia.
Qed.

Lemma get_word_count_bounds_witness :
  serializers.get_word_count buy_milk = 3
  ∧ 1 ≤ serializers.get_word_count buy_milk
    ≤ len (Task.title buy_milk) + len (Task.description buy_milk).
Proof.
  split; [vm_compute; reflexivity|].
  apply (get_word_count_bounds buy_milk). vm_compute. discriminate.
Defined.

(** * Views *)

Example exn_str_sample :
  exn_str (ValidationError "Tarea no encontrada")
  = "['Tarea no encontrada']"%string
  ∧ exn_str (PermissionDenied "No tienes permisos para acceder a esta tarea")
    = "No tienes permisos para acceder a esta tarea"%string
  ∧ PyRepr.repr "it's"
    = String PyRepr.dquote
        (String.append "it's" (String PyRepr.dquote EmptyString))
  ∧ PyRepr.repr (String (ascii_of_N 10) "a")
    = String PyRepr.squote
        (String PyRepr.backslash (String.append "na" "'"))%string.
Proof. by vm_compute. Qed.

(** X17: the retrieve view never writes. It answers 200 with the task
    exactly when the task exists and belongs to the requester, 403 with the
    permission message when it belongs to someone else and 400 when there
    is no such task, the error then being the printed [ValidationError],
    a list in brackets; it never answers 500. *)
Theorem get_view_answers task_id user st :
  ∃ resp,
    get task_id user st = (resp, st)
    ∧ match instance task_id <$> table st !! task_id with
      | Some task =>
          if decide (Task.user task = user) then
            resp = {| status := 200; body := TaskBody task |}
          else
            resp = {| status := 403;
                      body := ErrorBody
                        "No tienes permisos para acceder a esta tarea" |}
      | None =>
          resp = {| status := 400; body := ErrorBody "['Tarea no encontrada']" |}
      end.
Proof.
  unfold get, _get_task, mbind, M_bind.
  destruct (get_task_by_id_cases task_id user st)
    as [[Hget Hg]|[(task & Hget & Hu & Hg)|(task & Hget & Hu & Hg)]];
    rewrite Hg; eexists; (split; [reflexivity|]);
    rewrite get_by_id_lookup in Hget; injection Hget as ->.
  - done.
  - by rewrite decide_False.
  - by rewrite decide_True.
Qed.

(** X18: the destroy view answers 204 and removes the row exactly when the
    task exists and belongs to the requester; otherwise it answers 403 or
    400 as the retrieve view does and the store is as it was. *)
Theorem delete_view_answers task_id user st :
  ∃ resp st',
    TaskRetrieveUpdateDestroyView.delete task_id user st = (resp, st')
    ∧ match instance task_id <$> table st !! task_id with
      | Some task =>
          if decide (Task.user task = user) then
            resp = {| status := 204; body := NoBody |}
            ∧ get_by_id task_id st' = (Ok None, st')
            ∧ ∀ other, other ≠ task_id →
                (get_by_id other st').1 = (get_by_id other st).1
          else
            status resp = 403 ∧ st' = st
      | None => status resp = 400 ∧ st' = st
      end.
Proof.
  unfold TaskRetrieveUpdateDestroyView.delete,
    TaskRetrieveUpdateDestroyView._delete_task, delete_task, mbind, M_bind.
  destruct (get_task_by_id_cases task_id user st)
    as [[Hget Hg]|[(task & Hget & Hu & Hg)|(task & Hget & Hu & Hg)]];
    rewrite Hg; unfold delete; eexists _, _; (split; [reflexivity|]);
    pose proof Hget as Hrow; rewrite get_by_id_lookup in Hrow;
    injection Hrow as ->.
  - done.
  - by rewrite decide_False.
  - rewrite decide_True by done.
    apply get_by_id_Some in Hget as [_ ->]. split_and!; [done| |].
    + apply get_by_id_None. simpl. apply lookup_delete_eq.
    + intros other Hne. unfold get_by_id. simpl. by rewrite lookup_delete_ne.
Qed.

(** * Stored descriptions stay trimmed *)

Lemma descriptions_trimmed_rows st :
  descriptions_trimmed st ↔
  ∀ k r, table st !! k = Some r → trimmed (row_description r).
Proof.
  unfold descriptions_trimmed. split.
  - intros H k r Hr. apply (H k (instance k r)).
    unfold get_by_id. by rewrite Hr.
  - intros H k task Hget. apply get_by_id_Some in Hget as [Hrow _].
    apply (H _ _ Hrow).
Qed.

Lemma trimmed_from_option (old : str) description :
  trimmed old → trimmed (from_option strip old description).
Proof. intros Hold. destruct description; [apply trimmed_strip|done]. Qed.

Lemma after_call_descriptions_trimmed st c :
  descriptions_trimmed st → descriptions_trimmed (after_call st c).
Proof.
  intros Hinv. pose proof (proj1 (descriptions_trimmed_rows st) Hinv) as Hrows.
  apply descriptions_trimmed_rows. intros k r.
  destruct c as [now user title description
                |task_id user title description|task_id user]; simpl.
  - destruct (create_task now user title description st) as [res st'] eqn:Hc.
    apply create_task_cases in Hc
      as [(msg & -> & ->)|(t & -> & Ht & -> & ->)]; simpl; [apply Hrows|].
    rewrite lookup_insert. case_decide; [|apply Hrows]. intros [= <-]. simpl.
    by apply trimmed_from_option.
  - destruct (update_task task_id user title description st) as [res st'] eqn:Hu.
    apply update_task_cases in Hu
      as [(e & -> & -> & _)|(task & Hget & Howner & Ht & -> & ->)]; simpl;
      [apply Hrows|].
    rewrite lookup_insert. case_decide; [|apply Hrows]. intros [= <-]. simpl.
    apply trimmed_from_option. by apply (Hinv _ _ Hget).
  - destruct (delete_task task_id user st) as [res st'] eqn:Hd.
    apply delete_task_cases in Hd
      as [(e & -> & -> & _)|(task & Hget & Howner & -> & ->)]; simpl;
      [apply Hrows|].
    rewrite lookup_delete. case_decide; [done|apply Hrows].
Qed.

(** X19: stored descriptions stay trimmed: if every stored description is
    trimmed, so it is after any sequence of [create_task], [update_task]
    and [delete_task] calls, with or without a title. *)
Theorem service_keeps_descriptions_trimmed st cs :
  descriptions_trimmed st → descriptions_trimmed (after_calls st cs).
Proof.
  intros Hinv. induction cs as [|c cs IH] using rev_ind; [done|].
  rewrite after_calls_snoc. by apply after_call_descriptions_trimmed.
Qed.

Lemma service_keeps_descriptions_trimmed_witness :
  descriptions_trimmed
    (after_calls empty_store
       [CreateTask 10 1 (Some (lit "Buy milk")) (Some (lit "  2% "));
        UpdateTask 1 1 None (Some padded_description)]).
Proof.
  apply (service_keeps_descriptions_trimmed empty_store).
  intros k task. unfold get_by_id. simpl. rewrite lookup_empty. simpl.
  intros H. discriminate H.
Defined.

Example preview_sample :
  serializers.get_description_preview
    (Task.set_description buy_milk (replicate_char 97%N 51))
  = replicate_char 97%N 50 ++ lit "..."
  ∧ serializers.get_description_preview buy_milk = lit "2%".
Proof. by vm_compute. Qed.
